(** * Event classification and view bucketing of the eval tracker

    A shallow embedding of [src/app/page.tsx]: the event record, the
    personal-task actions [addPersonalEval] and [deletePersonalEval], the
    load step [fetchData], the merged sequence [allEvals] and the three
    view buckets (daily, weekly, monthly).

    Modelling conventions.
    - A JavaScript [Date] is its time value: milliseconds since the epoch,
      a [Z].  The local time zone has a constant offset [tz] from UTC (in
      milliseconds, local = UTC + tz); zones with daylight-saving
      transitions are outside the model.
    - [event_date] is a ['yyyy-MM-dd'] string; it is represented by the
      calendar date it spells ([CalDate]).
    - The ['personalEvals'] slot of [localStorage] holds the JSON document
      written by [JSON.stringify]; the document is kept as a tree
      ([json]) and [JSON_text] spells it out.
    - The date-fns functions and the built-ins ([Array.prototype.sort],
      [JSON.stringify], [JSON.parse]) are modelled from their documented
      behaviour, under the names the source calls them by. *)

From Stdlib Require Import ZArith List String Ascii Bool Lia.
From Stdlib Require Import Permutation Sorted.
From Stdlib Require Import DecimalString.
Import ListNotations.

Local Open Scope string_scope.
Local Open Scope Z_scope.

(** ** Proleptic Gregorian calendar *)

Module Calendar.

(** The content of a ['yyyy-MM-dd'] string. *)
Record CalDate : Set := mkDate { year : Z; month : Z; day : Z }.

Definition is_leap (y : Z) : bool :=
  ((y mod 4 =? 0) && negb (y mod 100 =? 0)) || (y mod 400 =? 0).

Definition days_in_month (y m : Z) : Z :=
  match m with
  | 1 => 31 | 2 => if is_leap y then 29 else 28 | 3 => 31 | 4 => 30
  | 5 => 31 | 6 => 30 | 7 => 31 | 8 => 31 | 9 => 30 | 10 => 31
  | 11 => 30 | 12 => 31
  | _ => 0
  end.

Definition year_length (y : Z) : Z := if is_leap y then 366 else 365.

Definition valid_date (d : CalDate) : bool :=
  (1 <=? month d) && (month d <=? 12) &&
  (1 <=? day d) && (day d <=? days_in_month (year d) (month d)).

(** Day number of 1 January of year [y], counted from 1970-01-01
    (ECMAScript's DayFromYear). *)
Definition days_before_year (y : Z) : Z :=
  365 * (y - 1970) + (y - 1969) / 4 - (y - 1901) / 100 + (y - 1601) / 400.

(** Days of year [y] that precede the first day of month [m]. *)
Definition days_before_month (y m : Z) : Z :=
  match m with
  | 1 => 0 | 2 => 31 | 3 => 59 | 4 => 90 | 5 => 120 | 6 => 151
  | 7 => 181 | 8 => 212 | 9 => 243 | 10 => 273 | 11 => 304 | 12 => 334
  | _ => 0
  end + (if (2 <? m) && is_leap y then 1 else 0).

(** Calendar date to day number (days since 1970-01-01). *)
Definition days_from_civil (d : CalDate) : Z :=
  days_before_year (year d) + days_before_month (year d) (month d)
  + (day d - 1).

(** The year a day number falls in: the largest [y] with
    [days_before_year y <= n] (ECMAScript's YearFromTime).  The mean
    year length puts the first guess within one year of it. *)
Definition year_of_day (n : Z) : Z :=
  let y := 1970 + (400 * n) / 146097 in
  if days_before_year (y + 1) <=? n then y + 1
  else if days_before_year y <=? n then y
  else y - 1.

(** The month of the [k]-th day (from 0) of year [y]. *)
Definition month_of_yearday (y k : Z) : Z :=
  if k <? days_before_month y 2 then 1
  else if k <? days_before_month y 3 then 2
  else if k <? days_before_month y 4 then 3
  else if k <? days_before_month y 5 then 4
  else if k <? days_before_month y 6 then 5
  else if k <? days_before_month y 7 then 6
  else if k <? days_before_month y 8 then 7
  else if k <? days_before_month y 9 then 8
  else if k <? days_before_month y 10 then 9
  else if k <? days_before_month y 11 then 10
  else if k <? days_before_month y 12 then 11
  else 12.

(** Day number to calendar date. *)
Definition civil_from_days (n : Z) : CalDate :=
  let y := year_of_day n in
  let k := n - days_before_year y in
  let m := month_of_yearday y k in
  mkDate y m (k - days_before_month y m + 1).

End Calendar.
Export Calendar.

(** ** date-fns and [Date], in a zone of constant offset *)

Definition msPerDay : Z := 86400000.

(** A [Date] object, as its time value. *)
Definition Date : Set := Z.

Definition getTime (d : Date) : Z := d.

(** [new Date('yyyy-MM-dd')]: a date-only ISO string is read as UTC
    midnight. *)
Definition new_Date (s : CalDate) : Date := days_from_civil s * msPerDay.

(** [isAfter(date, dateToCompare)]: is [date] later than [dateToCompare]. *)
Definition isAfter (date dateToCompare : Date) : bool :=
  getTime dateToCompare <? getTime date.

(** [isWithinInterval(date, {start, end})], both ends included. *)
Definition isWithinInterval (date start end_ : Date) : bool :=
  (getTime start <=? getTime date) && (getTime date <=? getTime end_).

(** [format(_, 'MMM')] of month [m] (1 to 12), default (en-US) locale. *)
Definition month_abbrev (m : Z) : string :=
  match m with
  | 1 => "Jan" | 2 => "Feb" | 3 => "Mar" | 4 => "Apr" | 5 => "May"
  | 6 => "Jun" | 7 => "Jul" | 8 => "Aug" | 9 => "Sep" | 10 => "Oct"
  | 11 => "Nov" | 12 => "Dec"
  | _ => ""
  end.

Definition upper_ascii (c : ascii) : ascii :=
  let n := nat_of_ascii c in
  if (Nat.leb 97 n && Nat.leb n 122)%bool then ascii_of_nat (n - 32) else c.

(** [String.prototype.toUpperCase], on ASCII letters. *)
Fixpoint toUpperCase (s : string) : string :=
  match s with
  | EmptyString => EmptyString
  | String c s' => String (upper_ascii c) (toUpperCase s')
  end.

Section FixedOffsetZone.

(** Offset of local time from UTC, in milliseconds. *)
Variable tz : Z.

(** Local calendar day (as a day number) and time within that day. *)
Definition localDay (d : Date) : Z := (d + tz) / msPerDay.
Definition timeInDay (d : Date) : Z := (d + tz) mod msPerDay.

(** [parseISO('yyyy-MM-dd')]: local midnight of that date. *)
Definition parseISO (s : CalDate) : Date :=
  days_from_civil s * msPerDay - tz.

(** [addDays]: [setDate(getDate() + amount)], the time of day is kept. *)
Definition addDays (d : Date) (amount : Z) : Date := d + amount * msPerDay.

Definition addWeeks (d : Date) (amount : Z) : Date := addDays d (amount * 7).

(** [startOfDay]: [setHours(0, 0, 0, 0)]. *)
Definition startOfDay (d : Date) : Date := d - timeInDay d.

(** [endOfDay]: [setHours(23, 59, 59, 999)]. *)
Definition endOfDay (d : Date) : Date := startOfDay d + (msPerDay - 1).

Definition isSameDay (a b : Date) : bool := startOfDay a =? startOfDay b.

(** [getDay]: 0 is Sunday; 1970-01-01 was a Thursday. *)
Definition getDay (d : Date) : Z := (localDay d + 4) mod 7.

(** [startOfWeek] with the default [weekStartsOn = 0] (Sunday). *)
Definition startOfWeek (d : Date) : Date :=
  startOfDay (addDays d (- getDay d)).

(** [endOfWeek] with the default [weekStartsOn = 0]: Saturday, last
    millisecond. *)
Definition endOfWeek (d : Date) : Date :=
  endOfDay (addDays d (6 - getDay d)).

(** The local calendar date of an instant: [format(_, 'yyyy-MM-dd')]. *)
Definition format_yyyy_MM_dd (d : Date) : CalDate :=
  civil_from_days (localDay d).

(** [format(_, 'MMM')]. *)
Definition format_MMM (d : Date) : string :=
  month_abbrev (month (civil_from_days (localDay d))).

End FixedOffsetZone.

(** ** Events *)

Inductive EvalType : Set := Quiz | Midsem | Lab | Deadline | Compre | Personal.

(** [id: string | number]. *)
Inductive EvalId : Set :=
| IdNum (n : Z)
| IdStr (s : string).

Record EvalEvent : Set := mkEval {
  id : EvalId;
  title : string;
  event_date : CalDate;
  time_range : option string;
  description : option string;
  type : EvalType;
  isPersonal : option bool
}.

(** Strict equality [===] on identifiers: a number never equals a string. *)
Definition EvalId_eqb (a b : EvalId) : bool :=
  match a, b with
  | IdNum n, IdNum m => n =? m
  | IdStr s, IdStr t => String.eqb s t
  | _, _ => false
  end.

(** ** JSON documents and their text *)

#[warnings="-register-all"]
Inductive json : Set :=
| JNull
| JBool (b : bool)
| JNum (n : Z)
| JStr (s : string)
| JArr (l : list json)
| JObj (l : list (string * json)).

Module JsonText.

Definition dquote : ascii := ascii_of_nat 34.
Definition backslash : ascii := ascii_of_nat 92.

Definition hex_digit (n : nat) : ascii :=
  if Nat.ltb n 10 then ascii_of_nat (48 + n) else ascii_of_nat (87 + n).

(** One character of a quoted JSON string (QuoteJSONString). *)
Definition escape_char (c : ascii) : string :=
  let n := nat_of_ascii c in
  if Nat.eqb n 34 then String backslash (String dquote "")
  else if Nat.eqb n 92 then String backslash (String backslash "")
  else if Nat.eqb n 8 then String backslash "b"
  else if Nat.eqb n 9 then String backslash "t"
  else if Nat.eqb n 10 then String backslash "n"
  else if Nat.eqb n 12 then String backslash "f"
  else if Nat.eqb n 13 then String backslash "r"
  else if Nat.ltb n 32 then
    String backslash
      ("u00" ++ String (hex_digit (n / 16)) (String (hex_digit (n mod 16)) ""))
  else String c "".

Fixpoint escape (s : string) : string :=
  match s with
  | EmptyString => EmptyString
  | String c s' => escape_char c ++ escape s'
  end.

Definition quote (s : string) : string :=
  String dquote (escape s ++ String dquote "").

(** A whole number in decimal (the spelling of numbers below 10^21). *)
Definition Z_text (n : Z) : string := NilZero.string_of_int (Z.to_int n).

Fixpoint join (sep : string) (l : list string) : string :=
  match l with
  | [] => ""
  | [x] => x
  | x :: l' => x ++ sep ++ join sep l'
  end.

(** The text [JSON.stringify] produces for a document (no indentation). *)
Fixpoint JSON_text (j : json) : string :=
  match j with
  | JNull => "null"
  | JBool true => "true"
  | JBool false => "false"
  | JNum n => Z_text n
  | JStr s => quote s
  | JArr l => "[" ++ join "," (map JSON_text l) ++ "]"
  | JObj l =>
      "{" ++ join ","
               (map (fun kv => match kv with
                               | (k, v) => quote k ++ ":" ++ JSON_text v
                               end) l) ++ "}"
  end.

End JsonText.
Export JsonText.

(** ** Events as JSON *)

Definition digit (n : Z) : ascii := ascii_of_nat (48 + Z.to_nat (n mod 10)).

Definition pad2 (n : Z) : string :=
  String (digit (n / 10)) (String (digit n) "").

Definition pad4 (n : Z) : string :=
  String (digit (n / 1000)) (String (digit (n / 100)) (pad2 n)).

(** The ['yyyy-MM-dd'] spelling of a date (years 0 to 9999). *)
Definition date_text (d : CalDate) : string :=
  pad4 (year d) ++ "-" ++ pad2 (month d) ++ "-" ++ pad2 (day d).

Definition digit_val (c : ascii) : option Z :=
  let n := nat_of_ascii c in
  if (Nat.leb 48 n && Nat.leb n 57)%bool then Some (Z.of_nat n - 48) else None.

Definition number2 (a b : ascii) : option Z :=
  match digit_val a, digit_val b with
  | Some x, Some y => Some (10 * x + y)
  | _, _ => None
  end.

(** Reads back a ['yyyy-MM-dd'] spelling. *)
Definition parse_date_text (s : string) : option CalDate :=
  match s with
  | String y1 (String y2 (String y3 (String y4 (String h1
      (String m1 (String m2 (String h2 (String d1 (String d2 EmptyString)))))))))
    =>
      if (Ascii.eqb h1 "-" && Ascii.eqb h2 "-")%bool then
        match number2 y1 y2, number2 y3 y4, number2 m1 m2, number2 d1 d2 with
        | Some yh, Some yl, Some m, Some d => Some (mkDate (100 * yh + yl) m d)
        | _, _, _, _ => None
        end
      else None
  | _ => None
  end.

Definition type_text (t : EvalType) : string :=
  match t with
  | Quiz => "Quiz" | Midsem => "Midsem" | Lab => "Lab"
  | Deadline => "Deadline" | Compre => "Compre" | Personal => "Personal"
  end.

Definition type_of_text (s : string) : option EvalType :=
  if String.eqb s "Quiz" then Some Quiz
  else if String.eqb s "Midsem" then Some Midsem
  else if String.eqb s "Lab" then Some Lab
  else if String.eqb s "Deadline" then Some Deadline
  else if String.eqb s "Compre" then Some Compre
  else if String.eqb s "Personal" then Some Personal
  else None.

Definition id_json (i : EvalId) : json :=
  match i with
  | IdNum n => JNum n
  | IdStr s => JStr s
  end.

(** A property whose value is [undefined] is left out by [JSON.stringify]. *)
Definition optional {A : Type} (k : string) (f : A -> json) (o : option A)
  : list (string * json) :=
  match o with
  | Some a => [(k, f a)]
  | None => []
  end.

(** An event as a JSON object; the keys come in the order in which
    [addPersonalEval] writes them. *)
Definition event_json (e : EvalEvent) : json :=
  JObj ([("id", id_json (id e));
         ("title", JStr (title e));
         ("event_date", JStr (date_text (event_date e)))]
        ++ optional "time_range" JStr (time_range e)
        ++ [("type", JStr (type_text (type e)))]
        ++ optional "isPersonal" JBool (isPersonal e)
        ++ optional "description" JStr (description e)).

(** The document [JSON.stringify(evals)] spells. *)
Definition JSON_value (l : list EvalEvent) : json := JArr (map event_json l).

(** [JSON.stringify] of a list of events. *)
Definition JSON_stringify (l : list EvalEvent) : string :=
  JSON_text (JSON_value l).

(** Value of key [k] in an object; the last occurrence wins. *)
Fixpoint lookup (k : string) (l : list (string * json)) : option json :=
  match l with
  | [] => None
  | (k', v) :: l' =>
      match lookup k l' with
      | Some v' => Some v'
      | None => if String.eqb k k' then Some v else None
      end
  end.

Definition id_of_json (j : json) : option EvalId :=
  match j with
  | JNum n => Some (IdNum n)
  | JStr s => Some (IdStr s)
  | _ => None
  end.

Definition optional_string (o : option json) : option (option string) :=
  match o with
  | None => Some None
  | Some (JStr s) => Some (Some s)
  | Some _ => None
  end.

Definition optional_bool (o : option json) : option (option bool) :=
  match o with
  | None => Some None
  | Some (JBool b) => Some (Some b)
  | Some _ => None
  end.

(** Reads an object back as an event; [None] when it is not one. *)
Definition event_of_json (j : json) : option EvalEvent :=
  match j with
  | JObj l =>
      match lookup "id" l, lookup "title" l, lookup "event_date" l,
            lookup "type" l with
      | Some ji, Some (JStr t), Some (JStr ds), Some (JStr ts) =>
          match id_of_json ji, parse_date_text ds, type_of_text ts,
                optional_string (lookup "time_range" l),
                optional_string (lookup "description" l),
                optional_bool (lookup "isPersonal" l) with
          | Some i, Some d, Some ty, Some tr, Some de, Some ip =>
              Some (mkEval i t d tr de ty ip)
          | _, _, _, _, _, _ => None
          end
      | _, _, _, _ => None
      end
  | _ => None
  end.

Fixpoint events_of_json (l : list json) : option (list EvalEvent) :=
  match l with
  | [] => Some []
  | j :: l' =>
      match event_of_json j, events_of_json l' with
      | Some e, Some es => Some (e :: es)
      | _, _ => None
      end
  end.

(** An event whose date has a ['yyyy-MM-dd'] spelling. *)
Definition spellable (e : EvalEvent) : Prop :=
  0 <= year (event_date e) < 10000 /\ valid_date (event_date e) = true.

(** [JSON.parse(stored)] used as [EvalEvent[]]; [None] when the document
    is not an array of events. *)
Definition JSON_parse (j : json) : option (list EvalEvent) :=
  match j with
  | JArr l => events_of_json l
  | _ => None
  end.

(** ** [Array.prototype.sort] with a comparator

    The sort is stable: elements the comparator does not separate keep
    their input order.  [insert] puts an element in front of the first
    element it does not have to follow. *)

Section ArraySort.

Variable A : Type.
Variable compareFn : A -> A -> Z.

Fixpoint insert (x : A) (l : list A) : list A :=
  match l with
  | [] => [x]
  | y :: l' => if 0 <? compareFn x y then y :: insert x l' else x :: l
  end.

Definition Array_sort (l : list A) : list A := fold_right insert [] l.

End ArraySort.

Arguments insert {A} compareFn x l.
Arguments Array_sort {A} compareFn l.

(** ** Component state *)

Inductive ViewMode : Set := daily | weekly | monthly.

(** The state hooks of [Home], and the ['personalEvals'] slot of
    [localStorage] ([None]: the slot was never written). *)
Record State : Set := mkState {
  masterEvals : list EvalEvent;
  personalEvals : list EvalEvent;
  loading : bool;
  viewMode : ViewMode;
  weekOffset : Z;
  selectedMonth : string;
  newEventTitle : string;
  newEventTime : string;
  isFormOpen : bool;
  localStorage : option json
}.

Definition setViewMode (v : ViewMode) (st : State) : State :=
  mkState (masterEvals st) (personalEvals st) (loading st) v (weekOffset st)
          (selectedMonth st) (newEventTitle st) (newEventTime st)
          (isFormOpen st) (localStorage st).

Definition setWeekOffset (w : Z) (st : State) : State :=
  mkState (masterEvals st) (personalEvals st) (loading st) (viewMode st) w
          (selectedMonth st) (newEventTitle st) (newEventTime st)
          (isFormOpen st) (localStorage st).

Definition setSelectedMonth (m : string) (st : State) : State :=
  mkState (masterEvals st) (personalEvals st) (loading st) (viewMode st)
          (weekOffset st) m (newEventTitle st) (newEventTime st)
          (isFormOpen st) (localStorage st).

Definition setNewEventTitle (s : string) (st : State) : State :=
  mkState (masterEvals st) (personalEvals st) (loading st) (viewMode st)
          (weekOffset st) (selectedMonth st) s (newEventTime st)
          (isFormOpen st) (localStorage st).

Definition setNewEventTime (s : string) (st : State) : State :=
  mkState (masterEvals st) (personalEvals st) (loading st) (viewMode st)
          (weekOffset st) (selectedMonth st) (newEventTitle st) s
          (isFormOpen st) (localStorage st).

Definition setIsFormOpen (b : bool) (st : State) : State :=
  mkState (masterEvals st) (personalEvals st) (loading st) (viewMode st)
          (weekOffset st) (selectedMonth st) (newEventTitle st)
          (newEventTime st) b (localStorage st).

(** The text held by the ['personalEvals'] slot, if any. *)
Definition serialized (st : State) : option string :=
  option_map JSON_text (localStorage st).

Definition monthTabs : list string := ["JAN"; "FEB"; "MAR"; "APR"; "MAY"].

(** The comparator of [allEvals]:
    [new Date(a.event_date).getTime() - new Date(b.event_date).getTime()]. *)
Definition compare_event_date (a b : EvalEvent) : Z :=
  getTime (new_Date (event_date a)) - getTime (new_Date (event_date b)).

(** The remote table [evals], read with
    [.gte('event_date', lower).order('event_date', { ascending: true })]. *)
Definition select_evals (lower : CalDate) (table : list EvalEvent)
  : list EvalEvent :=
  Array_sort compare_event_date
    (filter (fun e => days_from_civil lower <=? days_from_civil (event_date e))
            table).

Section Home.

Variable tz : Z.

(** State of the first render at instant [now], over a given content of
    the storage slot. *)
Definition initialState (now : Date) (slot : option json) : State :=
  mkState [] [] true daily 0 (toUpperCase (format_MMM tz now)) "" "" false
          slot.

(** [fetchData], run at instant [now].  [table] is the content of the
    remote table, [None] when the request yields no data.  The result is
    [None] when [JSON.parse] raises or yields something other than a list
    of events: such a load never reaches [setLoading(false)]. *)
Definition fetchData (now : Date) (table : option (list EvalEvent))
           (st : State) : option State :=
  let data := option_map (select_evals (format_yyyy_MM_dd tz now)) table in
  let master := match data with
                | Some d => d
                | None => masterEvals st
                end in
  match localStorage st with
  | Some stored =>
      match JSON_parse stored with
      | Some personal =>
          Some (mkState master personal false (viewMode st) (weekOffset st)
                        (selectedMonth st) (newEventTitle st)
                        (newEventTime st) (isFormOpen st) (localStorage st))
      | None => None
      end
  | None =>
      Some (mkState master (personalEvals st) false (viewMode st)
                    (weekOffset st) (selectedMonth st) (newEventTitle st)
                    (newEventTime st) (isFormOpen st) (localStorage st))
  end.

(** [addPersonalEval]; [now_id] is the reading of [Date.now()] and
    [now_date] the instant of [new Date()]. *)
Definition addPersonalEval (now_id : Z) (now_date : Date) (st : State)
  : State :=
  if String.eqb (newEventTitle st) "" then st
  else
    let newEval :=
      {| id := IdNum now_id;
         title := newEventTitle st;
         event_date := format_yyyy_MM_dd tz now_date;
         time_range :=
           Some (if String.eqb (newEventTime st) "" then "All Day"
                 else newEventTime st);
         type := Personal;
         isPersonal := Some true;
         description := Some "Personal Task" |} in
    let updated := (personalEvals st ++ [newEval])%list in
    mkState (masterEvals st) updated (loading st) (viewMode st)
            (weekOffset st) (selectedMonth st) "" "" false
            (Some (JSON_value updated)).

Definition deletePersonalEval (i : EvalId) (st : State) : State :=
  let updated :=
    filter (fun e => negb (EvalId_eqb (id e) i)) (personalEvals st) in
  mkState (masterEvals st) updated (loading st) (viewMode st)
          (weekOffset st) (selectedMonth st) (newEventTitle st)
          (newEventTime st) (isFormOpen st) (Some (JSON_value updated)).

(** *** View logic; [today] is the instant of the render. *)

Definition allEvals (st : State) : list EvalEvent :=
  Array_sort compare_event_date (masterEvals st ++ personalEvals st)%list.

Definition tomorrow (today : Date) : Date := addDays today 1.

Definition todayEvals (today : Date) (st : State) : list EvalEvent :=
  filter (fun e => isSameDay tz (parseISO tz (event_date e)) today)
         (allEvals st).

Definition tomorrowEvals (today : Date) (st : State) : list EvalEvent :=
  filter (fun e => isSameDay tz (parseISO tz (event_date e)) (tomorrow today))
         (allEvals st).

Definition upcomingEvals (today : Date) (st : State) : list EvalEvent :=
  filter (fun e =>
            let date := parseISO tz (event_date e) in
            isAfter date (tomorrow today)
            && isAfter (addDays today 14) date)
         (allEvals st).

Definition currentWeekStart (today : Date) (st : State) : Date :=
  addWeeks (startOfWeek tz today) (weekOffset st).

Definition currentWeekEnd (today : Date) (st : State) : Date :=
  endOfWeek tz (currentWeekStart today st).

Definition weeklyEvals (today : Date) (st : State) : list EvalEvent :=
  filter (fun e =>
            isWithinInterval (parseISO tz (event_date e))
                             (currentWeekStart today st)
                             (currentWeekEnd today st))
         (allEvals st).

Definition monthlyEvals (st : State) : list EvalEvent :=
  filter (fun e =>
            String.eqb
              (toUpperCase (format_MMM tz (parseISO tz (event_date e))))
              (selectedMonth st))
         (allEvals st).

(** *** What the user can do

    One constructor per control that the render puts on the page. *)

Inductive click : State -> State -> Prop :=
| click_daily st :
    click st (setViewMode daily st)
| click_weekly st :
    click st (setWeekOffset 0 (setViewMode weekly st))
| click_monthly st :
    click st (setViewMode monthly st)
| click_previous_week st :
    viewMode st = weekly ->
    click st (setWeekOffset (weekOffset st - 1) st)
| click_next_week st :
    viewMode st = weekly ->
    click st (setWeekOffset (weekOffset st + 1) st)
| click_month_tab st m :
    viewMode st = monthly -> In m monthTabs ->
    click st (setSelectedMonth m st)
| click_plus st :
    click st (setIsFormOpen true st)
| click_cancel st :
    isFormOpen st = true ->
    click st (setIsFormOpen false st)
| type_title st s :
    isFormOpen st = true ->
    click st (setNewEventTitle s st)
| type_time st s :
    isFormOpen st = true ->
    click st (setNewEventTime s st)
| click_add st now_id now_date :
    isFormOpen st = true ->
    click st (addPersonalEval now_id now_date st)
| click_trash st e :
    In e (allEvals st) -> isPersonal e = Some true ->
    click st (deletePersonalEval (id e) st).

(** While [loading] holds only the loading screen is rendered. *)
Inductive step : State -> State -> Prop :=
| user_action st st' : loading st = false -> click st st' -> step st st'.

(** Any number of user actions. *)
Inductive steps : State -> State -> Prop :=
| steps_refl st : steps st st
| steps_cons st1 st2 st3 : step st1 st2 -> steps st2 st3 -> steps st1 st3.

End Home.

(** ** What the page shows *)

(** The task [addPersonalEval] builds from the form fields. *)
Definition newEval (tz now_id : Z) (now_date : Date) (st : State) : EvalEvent :=
  {| id := IdNum now_id;
     title := newEventTitle st;
     event_date := format_yyyy_MM_dd tz now_date;
     time_range :=
       Some (if String.eqb (newEventTime st) "" then "All Day"
             else newEventTime st);
     type := Personal;
     isPersonal := Some true;
     description := Some "Personal Task" |}.

(** The tag under the week header.  It sits in the weekly header, so it
    takes [viewMode === 'weekly'] and [weekOffset === 0]. *)
Definition currentWeekTag (st : State) : bool :=
  match viewMode st with
  | weekly => weekOffset st =? 0
  | _ => false
  end.






(** [format(_, 'd MMM')]. *)
Definition format_d_MMM (tz : Z) (d : Date) : string :=
  Z_text (day (civil_from_days (localDay tz d))) ++ " "
  ++ month_abbrev (month (civil_from_days (localDay tz d))).

(** [EvalCard]: the date line, shown for [showDate]. *)
Definition EvalCard_date (tz : Z) (showDate : bool) (e : EvalEvent)
  : option string :=
  if showDate then Some (format_d_MMM tz (parseISO tz (event_date e)))
  else None.

(** A block of the content area. *)
Inductive Block : Set :=
| NoTasks (label : string)
| Cards (label : string) (evals : list EvalEvent) (showDate : bool)
| Note (text : string).

(** The component [Section]: the placeholder for an empty TODAY, nothing
    for any other empty list, the cards otherwise. *)
Definition Section_ (label : string) (evals : list EvalEvent)
           (showDate : bool) : option Block :=
  if (Nat.eqb (List.length evals) 0 && String.eqb label "TODAY")%bool
  then Some (NoTasks label)
  else if Nat.eqb (List.length evals) 0 then None
  else Some (Cards label evals showDate).

(** What React puts on the page for a component's result. *)
Definition shown (o : option Block) : list Block :=
  match o with
  | Some b => [b]
  | None => []
  end.

(** [evals.length === 0 && <div>text</div>]. *)
Definition note_if_empty (evals : list EvalEvent) (text : string)
  : list Block :=
  if Nat.eqb (List.length evals) 0 then [Note text] else [].

(** The content area of [Home] for the active view. *)
Definition content (tz : Z) (today : Date) (st : State) : list Block :=
  match viewMode st with
  | daily =>
      (shown (Section_ "TODAY" (todayEvals tz today st) false)
       ++ shown (Section_ "TOMORROW" (tomorrowEvals tz today st) false)
       ++ shown (Section_ "UPCOMING" (upcomingEvals tz today st) true))%list
  | weekly =>
      (shown (Section_ "EVENTS" (weeklyEvals tz today st) true)
       ++ note_if_empty (weeklyEvals tz today st)
            "No academic events scheduled for this week.")%list
  | monthly =>
      (shown (Section_ (selectedMonth st ++ " SCHEDULE")
                       (monthlyEvals tz st) true)
       ++ note_if_empty (monthlyEvals tz st)
            ("No events scheduled for " ++ selectedMonth st ++ "."))%list
  end.

Inductive Screen : Set :=
| LoadingFocus
| Page (blocks : list Block).

(** [Home]: the loading screen while [loading], the page otherwise. *)
Definition Home (tz : Z) (today : Date) (st : State) : Screen :=
  if loading st then LoadingFocus else Page (content tz today st).









(** ** Sample data *)

Module Sample.

(** Indian Standard Time, UTC+05:30 (no daylight saving). *)
Definition IST : Z := 19800000.

Definition mar_10 : CalDate := mkDate 2024 3 10.

(** 10 March 2024 (a Sunday), at 00:00 and at 12:00 local time. *)
Definition mar_10_midnight : Date := parseISO IST mar_10.
Definition mar_10_noon : Date := parseISO IST mar_10 + 12 * 3600000.

(** A row of the remote table. *)
Definition remote (i : Z) (t : string) (d : CalDate) : EvalEvent :=
  mkEval (IdNum i) t d None None Quiz None.

(** A personal task as [addPersonalEval] builds it. *)
Definition personal (i : Z) (t : string) (d : CalDate) : EvalEvent :=
  mkEval (IdNum i) t d (Some "All Day") (Some "Personal Task") Personal
         (Some true).

(** A loaded state in Daily mode. *)
Definition loaded (master own : list EvalEvent) (slot : option json)
  : State :=
  mkState master own false daily 0 "MAR" "" "" false slot.

Definition quiz_mar_24 : EvalEvent := remote 1 "Quiz 2" (mkDate 2024 3 24).

Definition quiz_mar_10 : EvalEvent := remote 2 "Quiz 1" mar_10.

Definition lab_mar_2025 : EvalEvent := remote 3 "Lab" (mkDate 2025 3 4).

(** A task stored on the day before, at noon. *)
Definition old_task : EvalEvent :=
  personal 1709965800000 "Old task" (mkDate 2024 3 9).

(** A task whose id is the clock reading of 10 March, noon. *)
Definition noon_task : EvalEvent := personal mar_10_noon "First" mar_10.

(** 10 October 2024, noon. *)
Definition oct_10_noon : Date := parseISO IST (mkDate 2024 10 10) + 12 * 3600000.

Definition quiz_oct_14 : EvalEvent := remote 4 "Compre" (mkDate 2024 10 14).

(** Nothing loaded and nothing ever stored. *)
Definition fresh : State := loaded [] [] None.

(** One stored task, the slot holding the list. *)
(** The state after the load of 10 March, noon, with [old_task] in the
    slot and [quiz_mar_10] in the remote table. *)
Definition loaded_mar_10 : State :=
  mkState [quiz_mar_10] [old_task] false daily 0 "MAR" "" "" false
          (Some (JSON_value [old_task])).

(** Monthly mode with the label OCT. *)
Definition october : State :=
  mkState [quiz_mar_10; quiz_oct_14] [] false monthly 0 "OCT" "" "" false
          None.

Definition one_task : State :=
  loaded [] [noon_task] (Some (JSON_value [noon_task])).

(** Two remote rows in ascending order, nothing personal. *)
Definition two_quizzes : State :=
  loaded [quiz_mar_10; quiz_mar_24] [] None.

(** Two March events a year apart and one October event, label MAR. *)
Definition three_events : State :=
  loaded [quiz_mar_10; lab_mar_2025; quiz_oct_14] [] None.


(** [one_task] with the form open and a title typed in. *)
Definition one_task_typing : State :=
  setNewEventTitle "New" (setIsFormOpen true one_task).

End Sample.

(** * Properties *)

(** ** The calendar: day numbers and dates determine each other *)

Module CalendarFacts.

Lemma days_before_year_succ (y : Z) :
  days_before_year (y + 1) = days_before_year y + year_length y.
Proof.
  unfold days_before_year, year_length, is_leap.
  destruct (y mod 4 =? 0) eqn:H4; destruct (y mod 100 =? 0) eqn:H100;
    destruct (y mod 400 =? 0) eqn:H400; cbn [andb orb negb];
    rewrite ?Z.eqb_eq, ?Z.eqb_neq in *;
    Z.div_mod_to_equations; lia.
Qed.

Lemma days_before_year_mono (y y' : Z) :
  y <= y' -> days_before_year y <= days_before_year y'.
Proof.
  unfold days_before_year. intros H. Z.div_mod_to_equations. lia.
Qed.

(** The first guess of [year_of_day] is at most one year off. *)
Lemma year_estimate (n : Z) :
  let y := 1970 + (400 * n) / 146097 in
  days_before_year (y - 1) <= n < days_before_year (y + 2).
Proof.
  cbv zeta. unfold days_before_year. Z.div_mod_to_equations. lia.
Qed.

Lemma year_of_day_bracket (n : Z) :
  days_before_year (year_of_day n) <= n
  < days_before_year (year_of_day n + 1).
Proof.
  pose proof (year_estimate n) as He. cbv zeta in He.
  unfold year_of_day.
  set (y := 1970 + 400 * n / 146097) in *.
  destruct (Z.leb_spec (days_before_year (y + 1)) n) as [H1|H1].
  - replace (y + 1 + 1) with (y + 2) by lia. lia.
  - destruct (Z.leb_spec (days_before_year y) n) as [H0|H0].
    + lia.
    + replace (y - 1 + 1) with y by lia. lia.
Qed.

Lemma year_bracket_unique (n y y' : Z) :
  days_before_year y <= n < days_before_year (y + 1) ->
  days_before_year y' <= n < days_before_year (y' + 1) ->
  y = y'.
Proof.
  intros H H'.
  destruct (Z.lt_trichotomy y y') as [Hlt|[Heq|Hgt]]; [|exact Heq|].
  - pose proof (days_before_year_mono (y + 1) y' ltac:(lia)). lia.
  - pose proof (days_before_year_mono (y' + 1) y ltac:(lia)). lia.
Qed.

Lemma year_of_day_unique (n y : Z) :
  days_before_year y <= n < days_before_year (y + 1) -> year_of_day n = y.
Proof.
  intros H. apply (year_bracket_unique n); [apply year_of_day_bracket|exact H].
Qed.

Ltac month_cases m :=
  let H := fresh in
  assert (H : m = 1 \/ m = 2 \/ m = 3 \/ m = 4 \/ m = 5 \/ m = 6 \/
              m = 7 \/ m = 8 \/ m = 9 \/ m = 10 \/ m = 11 \/ m = 12)
    by lia;
  repeat (destruct H as [H|H]); subst m.

Ltac split_ltb :=
  repeat match goal with
         | |- context [?a <? ?b] => destruct (Z.ltb_spec a b)
         | |- context [?a <=? ?b] => destruct (Z.leb_spec a b)
         end.

(** The month table, read both ways. *)
Lemma month_of_yearday_spec (y k : Z) :
  0 <= k < year_length y ->
  let m := month_of_yearday y k in
  1 <= m <= 12 /\
  days_before_month y m <= k < days_before_month y m + days_in_month y m.
Proof.
  unfold year_length, month_of_yearday, days_before_month, days_in_month.
  destruct (is_leap y); cbn [andb Z.ltb Z.compare Pos.compare Pos.compare_cont];
    intros H; cbv zeta; split_ltb; cbn; lia.
Qed.

Lemma month_of_yearday_unique (y m k : Z) :
  1 <= m <= 12 ->
  days_before_month y m <= k < days_before_month y m + days_in_month y m ->
  month_of_yearday y k = m.
Proof.
  intros Hm. month_cases m;
    unfold month_of_yearday, days_before_month, days_in_month;
    destruct (is_leap y); cbn; intros H; split_ltb; lia.
Qed.

Lemma valid_date_bounds (d : CalDate) :
  valid_date d = true ->
  1 <= month d <= 12 /\
  1 <= day d <= days_in_month (year d) (month d).
Proof.
  unfold valid_date. rewrite !andb_true_iff, !Z.leb_le. lia.
Qed.

Lemma days_before_month_end (y m : Z) :
  1 <= m <= 12 ->
  days_before_month y m + days_in_month y m <= year_length y.
Proof.
  intros Hm. month_cases m;
    unfold days_before_month, days_in_month, year_length;
    destruct (is_leap y); cbn; lia.
Qed.

Lemma days_in_month_le (y m : Z) : days_in_month y m <= 31.
Proof.
  unfold days_in_month.
  destruct (is_leap y); destruct m as [|p|p]; try lia;
    repeat (destruct p as [p|p|]; try lia).
Qed.

Lemma days_before_month_nonneg (y m : Z) : 0 <= days_before_month y m.
Proof.
  unfold days_before_month.
  destruct ((2 <? m) && is_leap y);
    destruct m as [|p|p]; try lia;
    repeat (destruct p as [p|p|]; try lia).
Qed.

(** A valid date is the date of its day number. *)
Theorem civil_from_days_from_civil (d : CalDate) :
  valid_date d = true -> civil_from_days (days_from_civil d) = d.
Proof.
  intros Hv. destruct (valid_date_bounds d Hv) as [Hm Hd].
  destruct d as [y m dd]; cbn [year month day] in *.
  pose proof (days_before_month_end y m Hm) as Hend.
  pose proof (days_before_month_nonneg y m) as Hnn.
  pose proof (days_before_year_succ y) as Hsucc.
  unfold civil_from_days, days_from_civil; cbn [year month day].
  rewrite (year_of_day_unique _ y) by lia.
  replace (days_before_year y + days_before_month y m + (dd - 1)
           - days_before_year y)
    with (days_before_month y m + (dd - 1)) by lia.
  rewrite (month_of_yearday_unique y m) by lia.
  f_equal. lia.
Qed.

(** Every day number is the day number of a valid date. *)
Theorem days_from_civil_from_days (n : Z) :
  valid_date (civil_from_days n) = true /\
  days_from_civil (civil_from_days n) = n.
Proof.
  pose proof (year_of_day_bracket n) as Hb.
  rewrite days_before_year_succ in Hb.
  unfold civil_from_days, days_from_civil, valid_date; cbn [year month day].
  set (y := year_of_day n) in *.
  set (k := n - days_before_year y).
  destruct (month_of_yearday_spec y k ltac:(unfold k; lia)) as [Hm Hk].
  cbv zeta in Hm, Hk.
  split; [|unfold k; lia].
  rewrite !andb_true_iff, !Z.leb_le. lia.
Qed.

End CalendarFacts.

(** ** Instants, local days and the date-fns predicates *)

Section DateFacts.

Variable tz : Z.

Lemma local_decomposition (d : Date) :
  d + tz = localDay tz d * msPerDay + timeInDay tz d /\
  0 <= timeInDay tz d < msPerDay.
Proof.
  unfold localDay, timeInDay, msPerDay. Z.div_mod_to_equations. lia.
Qed.

Lemma localDay_parseISO (s : CalDate) :
  localDay tz (parseISO tz s) = days_from_civil s.
Proof.
  unfold localDay, parseISO, msPerDay. Z.div_mod_to_equations. lia.
Qed.

Lemma timeInDay_parseISO (s : CalDate) : timeInDay tz (parseISO tz s) = 0.
Proof.
  unfold timeInDay, parseISO, msPerDay. Z.div_mod_to_equations. lia.
Qed.

Lemma localDay_addDays (d : Date) (n : Z) :
  localDay tz (addDays d n) = localDay tz d + n.
Proof.
  unfold localDay, addDays, msPerDay. Z.div_mod_to_equations. lia.
Qed.

Lemma timeInDay_addDays (d : Date) (n : Z) :
  timeInDay tz (addDays d n) = timeInDay tz d.
Proof.
  unfold timeInDay, addDays, msPerDay. Z.div_mod_to_equations. lia.
Qed.

(** [startOfDay] is local midnight of the local day. *)
Lemma startOfDay_localDay (d : Date) :
  startOfDay tz d = localDay tz d * msPerDay - tz.
Proof.
  unfold startOfDay. destruct (local_decomposition d). lia.
Qed.

(** [isSameDay] compares local days. *)
Lemma isSameDay_localDay (a b : Date) :
  isSameDay tz a b = (localDay tz a =? localDay tz b).
Proof.
  unfold isSameDay. rewrite !startOfDay_localDay.
  destruct (Z.eqb_spec (localDay tz a) (localDay tz b)) as [->|Hne].
  - apply Z.eqb_refl.
  - apply Z.eqb_neq. unfold msPerDay. lia.
Qed.

Lemma isSameDay_parseISO (s : CalDate) (d : Date) :
  isSameDay tz (parseISO tz s) d = (days_from_civil s =? localDay tz d).
Proof. rewrite isSameDay_localDay, localDay_parseISO. reflexivity. Qed.

(** An event date is after an instant when its day is after the
    instant's local day. *)
Lemma isAfter_parseISO_l (s : CalDate) (d : Date) :
  isAfter (parseISO tz s) d = (localDay tz d <? days_from_civil s).
Proof.
  unfold isAfter, getTime, parseISO.
  destruct (local_decomposition d) as [Hd Ht]. unfold msPerDay in *.
  destruct (Z.ltb_spec (localDay tz d) (days_from_civil s));
    [apply Z.ltb_lt | apply Z.ltb_ge]; lia.
Qed.

(** An instant is after an event date when its local day is after the
    event's day, or is that day with some time of day elapsed. *)
Lemma isAfter_parseISO_r (d : Date) (s : CalDate) :
  isAfter d (parseISO tz s)
  = (days_from_civil s <? localDay tz d)
    || ((days_from_civil s =? localDay tz d) && (0 <? timeInDay tz d)).
Proof.
  unfold isAfter, getTime, parseISO.
  destruct (local_decomposition d) as [Hd Ht]. unfold msPerDay in *.
  destruct (Z.ltb_spec (days_from_civil s) (localDay tz d));
    destruct (Z.eqb_spec (days_from_civil s) (localDay tz d));
    destruct (Z.ltb_spec 0 (timeInDay tz d)); cbn [orb andb];
    first [apply Z.ltb_lt | apply Z.ltb_ge]; lia.
Qed.

Lemma getDay_range (d : Date) : 0 <= getDay tz d <= 6.
Proof. unfold getDay. Z.div_mod_to_equations. lia. Qed.

(** The week of an instant starts at local midnight of the Sunday on or
    before its local day. *)
Lemma startOfWeek_localDay (d : Date) :
  startOfWeek tz d = (localDay tz d - getDay tz d) * msPerDay - tz.
Proof.
  unfold startOfWeek.
  rewrite startOfDay_localDay, localDay_addDays. unfold msPerDay. lia.
Qed.

Lemma endOfWeek_localDay (d : Date) :
  endOfWeek tz d = (localDay tz d - getDay tz d + 7) * msPerDay - tz - 1.
Proof.
  unfold endOfWeek, endOfDay.
  rewrite startOfDay_localDay, localDay_addDays. unfold msPerDay. lia.
Qed.

(** The date a valid event date is formatted back to. *)
Lemma format_parseISO (s : CalDate) :
  valid_date s = true -> format_yyyy_MM_dd tz (parseISO tz s) = s.
Proof.
  intros Hv. unfold format_yyyy_MM_dd. rewrite localDay_parseISO.
  apply CalendarFacts.civil_from_days_from_civil. exact Hv.
Qed.

Lemma format_MMM_parseISO (s : CalDate) :
  valid_date s = true ->
  format_MMM tz (parseISO tz s) = month_abbrev (month s).
Proof.
  intros Hv. unfold format_MMM. rewrite localDay_parseISO.
  rewrite CalendarFacts.civil_from_days_from_civil by exact Hv. reflexivity.
Qed.

End DateFacts.

(** ** Daily buckets *)

Section Daily.

Variable tz : Z.

Lemma in_todayEvals (today : Date) (st : State) (e : EvalEvent) :
  In e (todayEvals tz today st) <->
  In e (allEvals st) /\ days_from_civil (event_date e) = localDay tz today.
Proof.
  unfold todayEvals. rewrite filter_In, isSameDay_parseISO, Z.eqb_eq.
  reflexivity.
Qed.

Lemma in_tomorrowEvals (today : Date) (st : State) (e : EvalEvent) :
  In e (tomorrowEvals tz today st) <->
  In e (allEvals st) /\
  days_from_civil (event_date e) = localDay tz today + 1.
Proof.
  unfold tomorrowEvals, tomorrow.
  rewrite filter_In, isSameDay_parseISO, localDay_addDays, Z.eqb_eq.
  reflexivity.
Qed.

Lemma in_upcomingEvals (today : Date) (st : State) (e : EvalEvent) :
  In e (upcomingEvals tz today st) <->
  In e (allEvals st) /\
  localDay tz today + 2 <= days_from_civil (event_date e) /\
  (days_from_civil (event_date e) <= localDay tz today + 13 \/
   days_from_civil (event_date e) = localDay tz today + 14 /\
   0 < timeInDay tz today).
Proof.
  unfold upcomingEvals, tomorrow. rewrite filter_In. cbv zeta.
  rewrite isAfter_parseISO_l, isAfter_parseISO_r.
  rewrite !localDay_addDays, timeInDay_addDays.
  rewrite andb_true_iff, orb_true_iff, andb_true_iff.
  rewrite !Z.ltb_lt, Z.eqb_eq. intuition lia.
Qed.

End Daily.

(** C1 (as amended).  With [R] the local day of the render instant and [D]
    the day of an event: the event is in Upcoming exactly when it is in the
    merged sequence, [R + 2 <= D], and either [D <= R + 13], or
    [D = R + 14] and the render instant is later than local midnight.  So
    day [R + 13] is included, day [R + 1] is excluded, and day [R + 14] is
    included unless the render happens at local midnight exactly. *)
Theorem upcomingEvals_window (tz : Z) (today : Date) (st : State)
        (e : EvalEvent) :
  let R := localDay tz today in
  let D := days_from_civil (event_date e) in
  (In e (upcomingEvals tz today st) <->
   In e (allEvals st) /\
   R + 2 <= D /\ (D <= R + 13 \/ D = R + 14 /\ 0 < timeInDay tz today)) /\
  (D = R + 13 -> (In e (upcomingEvals tz today st) <-> In e (allEvals st))) /\
  (D = R + 1 -> ~ In e (upcomingEvals tz today st)) /\
  (D = R + 14 ->
   (In e (upcomingEvals tz today st) <->
    In e (allEvals st) /\ 0 < timeInDay tz today)).
Proof.
  cbv zeta. pose proof (in_upcomingEvals tz today st e) as H.
  split; [exact H|]. repeat split; intros; try (apply H); intuition lia.
Qed.

(** C1, as stated, fails: at noon of 10 March 2024 an event dated
    24 March, fourteen days after the reference day, is in Upcoming. *)
Lemma upcomingEvals_day_14_included :
  days_from_civil (event_date Sample.quiz_mar_24)
  = localDay Sample.IST Sample.mar_10_noon + 14 /\
  In Sample.quiz_mar_24
     (upcomingEvals Sample.IST Sample.mar_10_noon
                    (Sample.loaded [Sample.quiz_mar_24] [] None)).
Proof.
  split; [reflexivity|]. vm_compute. left. reflexivity.
Qed.

(** Rendered at local midnight to the millisecond, the same event is not
    in Upcoming. *)
Lemma upcomingEvals_day_14_at_midnight :
  ~ In Sample.quiz_mar_24
       (upcomingEvals Sample.IST Sample.mar_10_midnight
                      (Sample.loaded [Sample.quiz_mar_24] [] None)).
Proof. vm_compute. tauto. Qed.

(** C2.  The three Daily buckets are filters of the merged sequence, and no
    event is in two of them: an event of the merged sequence is in Today,
    in Tomorrow, in Upcoming, or in none, and never in more than one. *)
Theorem daily_buckets_exclusive (tz : Z) (today : Date) (st : State)
        (e : EvalEvent) :
  (In e (todayEvals tz today st) \/ In e (tomorrowEvals tz today st) \/
   In e (upcomingEvals tz today st) -> In e (allEvals st)) /\
  ~ (In e (todayEvals tz today st) /\ In e (tomorrowEvals tz today st)) /\
  ~ (In e (todayEvals tz today st) /\ In e (upcomingEvals tz today st)) /\
  ~ (In e (tomorrowEvals tz today st) /\ In e (upcomingEvals tz today st)).
Proof.
  rewrite in_todayEvals, in_tomorrowEvals, in_upcomingEvals.
  repeat split; intuition lia.
Qed.

(** ** The sort: a stable, ordered rearrangement *)

Section SortFacts.

Variable A : Type.
Variable compareFn : A -> A -> Z.
Variable key : A -> Z.

(** The comparator orders by [key]. *)
Hypothesis compareFn_key : forall x y, 0 < compareFn x y <-> key y < key x.

Local Abbreviation key_le := (fun a b : A => key a <= key b).

Lemma insert_perm (x : A) (l : list A) :
  Permutation (x :: l) (insert compareFn x l).
Proof.
  induction l as [|y l IH]; cbn [insert].
  - apply Permutation_refl.
  - destruct (0 <? compareFn x y).
    + eapply perm_trans; [apply perm_swap|]. apply perm_skip. exact IH.
    + apply Permutation_refl.
Qed.

Lemma Array_sort_perm (l : list A) : Permutation l (Array_sort compareFn l).
Proof.
  induction l as [|x l IH]; cbn [Array_sort fold_right].
  - apply perm_nil.
  - eapply perm_trans; [apply perm_skip; exact IH|]. apply insert_perm.
Qed.

Lemma insert_sorted (x : A) (l : list A) :
  StronglySorted key_le l -> StronglySorted key_le (insert compareFn x l).
Proof.
  induction 1 as [|y l Hs IH Hy]; cbn [insert].
  - constructor; constructor.
  - destruct (Z.ltb_spec 0 (compareFn x y)) as [Hlt|Hge].
    + apply compareFn_key in Hlt. constructor; [exact IH|].
      apply Forall_forall. intros z Hz.
      apply (Permutation_in z (Permutation_sym (insert_perm x l))) in Hz.
      destruct Hz as [<-|Hz]; [lia|].
      exact (proj1 (Forall_forall _ _) Hy z Hz).
    + assert (Hxy : key x <= key y).
      { destruct (Z.le_gt_cases (key x) (key y)) as [Hle|Hgt]; [exact Hle|].
        apply compareFn_key in Hgt. lia. }
      constructor; [constructor; assumption|].
      constructor; [exact Hxy|].
      apply Forall_forall. intros z Hz.
      pose proof (proj1 (Forall_forall _ _) Hy z Hz) as Hyz.
      cbv beta in *. lia.
Qed.

Lemma Array_sort_sorted (l : list A) :
  StronglySorted key_le (Array_sort compareFn l).
Proof.
  induction l as [|x l IH]; cbn [Array_sort fold_right].
  - constructor.
  - apply insert_sorted. exact IH.
Qed.

(** [insert] only moves an element past elements of smaller key, so the
    elements of any one key keep their order. *)
Lemma filter_insert (k : Z) (x : A) (l : list A) :
  filter (fun a => key a =? k) (insert compareFn x l)
  = filter (fun a => key a =? k) (x :: l).
Proof.
  induction l as [|y l IH]; cbn [insert]; [reflexivity|].
  destruct (Z.ltb_spec 0 (compareFn x y)) as [Hlt|Hge]; [|reflexivity].
  apply compareFn_key in Hlt.
  cbn [filter] in *. rewrite IH.
  destruct (Z.eqb_spec (key x) k) as [Hx|Hx];
    destruct (Z.eqb_spec (key y) k) as [Hy|Hy]; try reflexivity.
  lia.
Qed.

Lemma filter_Array_sort (k : Z) (l : list A) :
  filter (fun a => key a =? k) (Array_sort compareFn l)
  = filter (fun a => key a =? k) l.
Proof.
  induction l as [|x l IH]; cbn [Array_sort fold_right]; [reflexivity|].
  rewrite filter_insert. cbn [filter]. fold (Array_sort compareFn l).
  rewrite IH. reflexivity.
Qed.

(** Two ordered lists that agree on the elements of every key, order
    included, are equal: an ordered, stable rearrangement is unique, so
    [Array_sort] is the result of any stable sort. *)
Lemma sorted_stable_unique (l1 l2 : list A) :
  StronglySorted key_le l1 -> StronglySorted key_le l2 ->
  (forall k, filter (fun a => key a =? k) l1
             = filter (fun a => key a =? k) l2) ->
  l1 = l2.
Proof.
  intros H1. revert l2.
  induction H1 as [|a l1 Hs1 IH Ha]; intros l2 H2 Hf.
  - destruct l2 as [|b l2]; [reflexivity|].
    specialize (Hf (key b)). cbn [filter] in Hf.
    rewrite Z.eqb_refl in Hf. discriminate Hf.
  - destruct H2 as [|b l2 Hs2 Hb].
    + specialize (Hf (key a)). cbn [filter] in Hf.
      rewrite Z.eqb_refl in Hf. discriminate Hf.
    + assert (Hab : key a <= key b).
      { assert (Hin : In b (a :: l1)).
        { pose proof (Hf (key b)) as Hk. cbn [filter] in Hk.
          rewrite (Z.eqb_refl (key b)) in Hk.
          assert (Hb' : In b (filter (fun x => key x =? key b) (a :: l1)))
            by (cbn [filter]; rewrite Hk; left; reflexivity).
          apply filter_In in Hb'. tauto. }
        destruct Hin as [->|Hin]; [lia|].
        exact (proj1 (Forall_forall _ _) Ha b Hin). }
      assert (Hba : key b <= key a).
      { assert (Hin : In a (b :: l2)).
        { pose proof (Hf (key a)) as Hk. cbn [filter] in Hk.
          rewrite (Z.eqb_refl (key a)) in Hk.
          assert (Ha' : In a (filter (fun x => key x =? key a) (b :: l2)))
            by (cbn [filter]; rewrite <- Hk; left; reflexivity).
          apply filter_In in Ha'. tauto. }
        destruct Hin as [->|Hin]; [lia|].
        exact (proj1 (Forall_forall _ _) Hb a Hin). }
      assert (Hk : key a = key b) by lia.
      pose proof (Hf (key a)) as Hhead. cbn [filter] in Hhead.
      rewrite Z.eqb_refl, <- Hk, Z.eqb_refl in Hhead.
      injection Hhead as -> _. f_equal. apply IH; [exact Hs2|].
      intros k. specialize (Hf k). cbn [filter] in Hf.
      destruct (key b =? k); [injection Hf as Hf|]; exact Hf.
Qed.

Lemma Array_sort_unique (l l' : list A) :
  StronglySorted key_le l' ->
  (forall k, filter (fun a => key a =? k) l'
             = filter (fun a => key a =? k) l) ->
  l' = Array_sort compareFn l.
Proof.
  intros Hs Hf. apply sorted_stable_unique.
  - exact Hs.
  - apply Array_sort_sorted.
  - intros k. rewrite filter_Array_sort. apply Hf.
Qed.

(** A filtered list that splits in two comes from a split of the list. *)
Lemma filter_app_inv (f : A -> bool) (l u v : list A) :
  filter f l = (u ++ v)%list ->
  exists lu lv, l = (lu ++ lv)%list /\ filter f lu = u /\ filter f lv = v.
Proof.
  revert u. induction l as [|x l IH]; intros u H.
  - cbn in H. symmetry in H. apply app_eq_nil in H as [-> ->].
    exists [], []. repeat split.
  - cbn [filter] in H. destruct (f x) eqn:Hx.
    + destruct u as [|y u].
      * exists [], (x :: l). cbn [app filter]. rewrite Hx.
        repeat split. exact H.
      * cbn [app] in H. injection H as -> H.
        destruct (IH u H) as (lu & lv & -> & Hu & Hv).
        exists (y :: lu), lv. cbn [app filter]. rewrite Hx, Hu.
        repeat split. exact Hv.
    + destruct (IH u H) as (lu & lv & -> & Hu & Hv).
      exists (x :: lu), lv. cbn [app filter]. rewrite Hx.
      repeat split; assumption.
Qed.

(** In the sort of [l1 ++ l2], an element of [l1] comes before any
    element of [l2] that has the same key. *)
Lemma Array_sort_app_precedes (l1 l2 : list A) (a b : A) :
  In a l1 -> In b l2 -> key a = key b ->
  exists p q r,
    Array_sort compareFn (l1 ++ l2) = (p ++ a :: q ++ b :: r)%list.
Proof.
  intros Ha Hb Hk.
  pose proof (filter_Array_sort (key a) (l1 ++ l2)) as H.
  rewrite filter_app in H.
  destruct (filter_app_inv _ _ _ _ H) as (lu & lv & Hl & Hu & Hv).
  assert (Hau : In a lu).
  { assert (Hf : In a (filter (fun x => key x =? key a) l1))
      by (apply filter_In; split; [exact Ha | apply Z.eqb_refl]).
    rewrite <- Hu in Hf. apply filter_In in Hf. tauto. }
  assert (Hbv : In b lv).
  { assert (Hf : In b (filter (fun x => key x =? key a) l2))
      by (apply filter_In; split; [exact Hb | apply Z.eqb_eq; lia]).
    rewrite <- Hv in Hf. apply filter_In in Hf. tauto. }
  apply in_split in Hau as (p & q1 & ->).
  apply in_split in Hbv as (q2 & r & ->).
  exists p, (q1 ++ q2)%list, r. rewrite Hl.
  rewrite <- !app_assoc. reflexivity.
Qed.

End SortFacts.

Lemma compare_event_date_key (x y : EvalEvent) :
  0 < compare_event_date x y <->
  days_from_civil (event_date y) < days_from_civil (event_date x).
Proof. unfold compare_event_date, getTime, new_Date, msPerDay. lia. Qed.

(** C3.  The merged sequence is a rearrangement of the remote sequence
    followed by the personal one, it is in ascending order of event date,
    and events of one date keep their input order: the remote ones first,
    then the personal ones; in particular a remote event precedes any
    personal event of the same date. *)
Theorem allEvals_merge_sorted (st : State) :
  let day_of e := days_from_civil (event_date e) in
  Permutation (masterEvals st ++ personalEvals st) (allEvals st) /\
  StronglySorted (fun a b => day_of a <= day_of b) (allEvals st) /\
  (forall d : Z,
      filter (fun e => day_of e =? d) (allEvals st)
      = (filter (fun e => day_of e =? d) (masterEvals st)
         ++ filter (fun e => day_of e =? d) (personalEvals st))%list) /\
  (forall r p : EvalEvent,
      In r (masterEvals st) -> In p (personalEvals st) ->
      day_of r = day_of p ->
      exists l1 l2 l3, allEvals st = (l1 ++ r :: l2 ++ p :: l3)%list).
Proof.
  cbv zeta. unfold allEvals. repeat split.
  - apply (Array_sort_perm _ compare_event_date).
  - apply (Array_sort_sorted _ compare_event_date _ compare_event_date_key).
  - intros d.
    rewrite (filter_Array_sort _ compare_event_date _ compare_event_date_key).
    apply filter_app.
  - intros r p Hr Hp Hd.
    apply (Array_sort_app_precedes _ compare_event_date _
             compare_event_date_key); assumption.
Qed.

(** ** Weekly bucket *)

Section Weekly.

Variable tz : Z.

(** The Sunday on or before the local day of [today], moved by the week
    offset. *)
Local Abbreviation week_day today st :=
  (localDay tz today - getDay tz today + 7 * weekOffset st).

Lemma currentWeekStart_localDay (today : Date) (st : State) :
  currentWeekStart tz today st = week_day today st * msPerDay - tz.
Proof.
  unfold currentWeekStart, addWeeks, addDays.
  rewrite startOfWeek_localDay. unfold msPerDay, Date. lia.
Qed.

Lemma week_day_sunday (today : Date) (st : State) :
  (week_day today st + 4) mod 7 = 0.
Proof. unfold getDay. Z.div_mod_to_equations. lia. Qed.

Lemma currentWeekEnd_localDay (today : Date) (st : State) :
  currentWeekEnd tz today st = (week_day today st + 7) * msPerDay - tz - 1.
Proof.
  unfold currentWeekEnd. rewrite endOfWeek_localDay.
  assert (Hl : localDay tz (currentWeekStart tz today st)
               = week_day today st).
  { rewrite currentWeekStart_localDay.
    unfold localDay, msPerDay. Z.div_mod_to_equations. lia. }
  assert (Hg : getDay tz (currentWeekStart tz today st) = 0)
    by (unfold getDay at 1; rewrite Hl; apply week_day_sunday).
  rewrite Hl, Hg. unfold msPerDay, Date. lia.
Qed.

Lemma in_weeklyEvals (today : Date) (st : State) (e : EvalEvent) :
  In e (weeklyEvals tz today st) <->
  In e (allEvals st) /\
  week_day today st <= days_from_civil (event_date e)
  <= week_day today st + 6.
Proof.
  unfold weeklyEvals. rewrite filter_In.
  rewrite currentWeekStart_localDay, currentWeekEnd_localDay.
  unfold isWithinInterval, getTime, parseISO.
  rewrite andb_true_iff, !Z.leb_le. unfold msPerDay. intuition lia.
Qed.

End Weekly.

(** C4.  With week offset 0, the week runs from local midnight of the
    Sunday [W] on or before the reference day to the last millisecond of the
    following Saturday, and the bucket holds exactly the events of the
    merged sequence dated [W] to [W + 6]: an event dated [W], whose instant
    is the start boundary, is included, and an event dated [W - 1] is
    not. *)
Theorem weeklyEvals_current_week (tz : Z) (today : Date) (st : State)
        (e : EvalEvent) :
  weekOffset st = 0 ->
  let W := localDay tz today - getDay tz today in
  let D := days_from_civil (event_date e) in
  ((W + 4) mod 7 = 0 /\ W <= localDay tz today <= W + 6) /\
  currentWeekStart tz today st = W * msPerDay - tz /\
  currentWeekEnd tz today st = (W + 7) * msPerDay - tz - 1 /\
  (In e (weeklyEvals tz today st) <->
   In e (allEvals st) /\ W <= D <= W + 6) /\
  (D = W ->
   parseISO tz (event_date e) = currentWeekStart tz today st /\
   (In e (allEvals st) -> In e (weeklyEvals tz today st))) /\
  (D = W - 1 -> ~ In e (weeklyEvals tz today st)).
Proof.
  intros Hoff. cbv zeta.
  pose proof (week_day_sunday tz today st) as Hsun.
  pose proof (currentWeekStart_localDay tz today st) as Hstart.
  pose proof (currentWeekEnd_localDay tz today st) as Hend.
  pose proof (in_weeklyEvals tz today st e) as Hin.
  pose proof (getDay_range tz today) as Hday.
  rewrite Hoff in *.
  replace (localDay tz today - getDay tz today + 7 * 0)
    with (localDay tz today - getDay tz today) in * by lia.
  split; [split; [exact Hsun | lia]|].
  split; [rewrite Hstart; unfold Date; lia|].
  split; [exact Hend|].
  split; [exact Hin|].
  split.
  - intros HD. split.
    + rewrite Hstart. unfold parseISO. rewrite HD. unfold Date. lia.
    + intros HI. apply Hin. split; [exact HI|lia].
  - intros HD HI. apply Hin in HI. lia.
Qed.

(** ** Monthly bucket *)

Lemma month_label_injective (m m' : Z) :
  1 <= m <= 12 -> 1 <= m' <= 12 ->
  toUpperCase (month_abbrev m') = toUpperCase (month_abbrev m) -> m' = m.
Proof.
  intros Hm Hm'.
  CalendarFacts.month_cases m; CalendarFacts.month_cases m';
    intros H; vm_compute in H; first [reflexivity | discriminate H].
Qed.

Lemma in_monthlyEvals (tz : Z) (st : State) (e : EvalEvent) :
  valid_date (event_date e) = true ->
  (In e (monthlyEvals tz st) <->
   In e (allEvals st) /\
   toUpperCase (month_abbrev (month (event_date e))) = selectedMonth st).
Proof.
  intros Hv. unfold monthlyEvals.
  rewrite filter_In, format_MMM_parseISO by exact Hv.
  rewrite String.eqb_eq. reflexivity.
Qed.

(** C5.  The Monthly bucket matches by month label only: an event with a
    valid date is in it exactly when it is in the merged sequence and the
    label of its month is the selected one, its year playing no part.  So
    with the label of month [M] selected the bucket holds exactly the
    events dated in month [M]; an event in year Y month [M] and an event in
    year Y+1 month [M] are both in it, and an event of another month is
    not. *)
Theorem monthlyEvals_year_agnostic (tz : Z) (st : State) :
  (forall e,
      valid_date (event_date e) = true ->
      (In e (monthlyEvals tz st) <->
       In e (allEvals st) /\
       toUpperCase (month_abbrev (month (event_date e))) = selectedMonth st)) /\
  (forall M,
      1 <= M <= 12 ->
      selectedMonth st = toUpperCase (month_abbrev M) ->
      (forall e,
          valid_date (event_date e) = true ->
          (In e (monthlyEvals tz st) <->
           In e (allEvals st) /\ month (event_date e) = M)) /\
      (forall e1 e2,
          valid_date (event_date e1) = true ->
          valid_date (event_date e2) = true ->
          In e1 (allEvals st) -> In e2 (allEvals st) ->
          month (event_date e1) = M -> month (event_date e2) = M ->
          year (event_date e2) = year (event_date e1) + 1 ->
          In e1 (monthlyEvals tz st) /\ In e2 (monthlyEvals tz st))).
Proof.
  split; [intros e Hv; apply in_monthlyEvals; exact Hv|].
  intros M HM Hsel.
  assert (Hiff : forall e,
             valid_date (event_date e) = true ->
             (In e (monthlyEvals tz st) <->
              In e (allEvals st) /\ month (event_date e) = M)).
  { intros e Hv. rewrite (in_monthlyEvals tz st e Hv), Hsel.
    pose proof (CalendarFacts.valid_date_bounds _ Hv) as [Hm _].
    split; intros [HI He]; (split; [exact HI|]).
    - apply (month_label_injective M); [exact HM | exact Hm | exact He].
    - rewrite He. reflexivity. }
  split; [exact Hiff|].
  intros e1 e2 Hv1 Hv2 H1 H2 Hm1 Hm2 _.
  split; apply Hiff; try assumption; split; assumption.
Qed.

(** ** Personal tasks *)

Lemma EvalId_eqb_eq (a b : EvalId) : EvalId_eqb a b = true <-> a = b.
Proof.
  destruct a as [n|s], b as [m|t]; cbn [EvalId_eqb].
  - rewrite Z.eqb_eq. split; [intros ->; reflexivity | congruence].
  - split; [discriminate | congruence].
  - split; [discriminate | congruence].
  - rewrite String.eqb_eq. split; [intros ->; reflexivity | congruence].
Qed.

Lemma EvalId_eqb_neq (a b : EvalId) : EvalId_eqb a b = false <-> a <> b.
Proof.
  rewrite <- EvalId_eqb_eq. destruct (EvalId_eqb a b); split; congruence.
Qed.

(** Filtering out an identifier no element has leaves the list as it is. *)
Lemma filter_absent_id (i : EvalId) (l : list EvalEvent) :
  (forall e, In e l -> id e <> i) ->
  filter (fun e => negb (EvalId_eqb (id e) i)) l = l.
Proof.
  induction l as [|x l IH]; intros H; cbn [filter]; [reflexivity|].
  assert (Hx : EvalId_eqb (id x) i = false)
    by (apply EvalId_eqb_neq, H; left; reflexivity).
  rewrite Hx. cbn [negb]. f_equal. apply IH.
  intros e He. apply H. right. exact He.
Qed.

(** C6.  With an empty title [addPersonalEval] returns at once: the whole
    state, and with it the personal list and the stored text, is what it
    was. *)
Theorem addPersonalEval_empty_title (tz now_id : Z) (now_date : Date)
        (st : State) :
  newEventTitle st = "" ->
  addPersonalEval tz now_id now_date st = st /\
  personalEvals (addPersonalEval tz now_id now_date st) = personalEvals st /\
  serialized (addPersonalEval tz now_id now_date st) = serialized st.
Proof.
  intros Ht. unfold addPersonalEval. rewrite Ht. cbn [String.eqb].
  repeat split.
Qed.

(** C7 (as amended).  [deletePersonalEval] keeps the elements whose id
    differs from the given one and writes the text of the resulting list
    to the slot.  When no element has the id, the list is unchanged and
    the slot gets the text of that same list: its content is unchanged
    provided it already held that text. *)
Theorem deletePersonalEval_spec (i : EvalId) (st : State) :
  let st' := deletePersonalEval i st in
  personalEvals st'
  = filter (fun e => negb (EvalId_eqb (id e) i)) (personalEvals st) /\
  (forall e, In e (personalEvals st') <->
             In e (personalEvals st) /\ id e <> i) /\
  serialized st' = Some (JSON_stringify (personalEvals st')) /\
  ((forall e, In e (personalEvals st) -> id e <> i) ->
   personalEvals st' = personalEvals st /\
   (serialized st = Some (JSON_stringify (personalEvals st)) ->
    serialized st' = serialized st)).
Proof.
  cbv zeta. unfold deletePersonalEval, serialized, JSON_stringify.
  cbn [personalEvals localStorage option_map].
  split; [reflexivity|]. split.
  - intros e. rewrite filter_In, negb_true_iff, EvalId_eqb_neq. reflexivity.
  - split; [reflexivity|]. intros Habs.
    rewrite (filter_absent_id i _ Habs).
    split; [reflexivity|]. intros Hs. symmetry. exact Hs.
Qed.

(** C7, as stated, fails: before anything was stored, deleting an unknown
    id leaves the (empty) list as it is but takes the slot from absent to
    the text of the empty list. *)
Lemma deletePersonalEval_unknown_id_writes_slot :
  personalEvals Sample.fresh = [] /\
  personalEvals (deletePersonalEval (IdNum 1) Sample.fresh) = [] /\
  serialized Sample.fresh = None /\
  serialized (deletePersonalEval (IdNum 1) Sample.fresh) = Some "[]".
Proof.
  repeat split.
Qed.

(** C8 (as amended).  When the title is not empty, no element of the
    personal list has the id the new task gets, and the slot holds the text
    of the personal list, creating a task and deleting it by its id brings
    back the list and the stored text. *)
Theorem add_then_delete_restores (tz now_id : Z) (now_date : Date)
        (st : State) :
  newEventTitle st <> "" ->
  (forall e, In e (personalEvals st) -> id e <> IdNum now_id) ->
  serialized st = Some (JSON_stringify (personalEvals st)) ->
  let st' := deletePersonalEval (IdNum now_id)
                                (addPersonalEval tz now_id now_date st) in
  personalEvals st' = personalEvals st /\ serialized st' = serialized st.
Proof.
  intros Ht Hfresh Hs. cbv zeta.
  unfold addPersonalEval.
  destruct (String.eqb_spec (newEventTitle st) "") as [He|_]; [contradiction|].
  unfold deletePersonalEval, serialized at 1, JSON_stringify.
  cbn [personalEvals localStorage option_map id].
  rewrite filter_app. cbn [filter id EvalId_eqb].
  rewrite Z.eqb_refl. cbn [negb].
  rewrite (filter_absent_id _ _ Hfresh), app_nil_r.
  split; [reflexivity|]. symmetry. exact Hs.
Qed.

(** C8, as stated, fails twice over.  A stored task that carries the id the
    new task gets is deleted along with it; and before anything was stored,
    the slot goes from absent to the text of the empty list. *)
Lemma add_then_delete_changes_slot :
  (let st := setNewEventTitle "New" Sample.one_task in
   let st' := deletePersonalEval (IdNum Sample.mar_10_noon)
                (addPersonalEval Sample.IST Sample.mar_10_noon
                                 Sample.mar_10_noon st) in
   personalEvals st = [Sample.noon_task] /\
   serialized st = Some (JSON_stringify [Sample.noon_task]) /\
   personalEvals st' = [] /\ serialized st' = Some "[]" /\
   serialized st' <> serialized st) /\
  (let st := setNewEventTitle "New" Sample.fresh in
   let st' := deletePersonalEval (IdNum Sample.mar_10_noon)
                (addPersonalEval Sample.IST Sample.mar_10_noon
                                 Sample.mar_10_noon st) in
   serialized st = None /\ serialized st' = Some "[]").
Proof.
  split; cbv zeta; repeat split.
  vm_compute. discriminate.
Qed.

(** ** Loading, and what user actions leave alone *)

Section Session.

Variable tz : Z.

Lemma step_masterEvals (st st' : State) :
  step tz st st' -> masterEvals st' = masterEvals st.
Proof.
  intros [s s' _ Hc]. destruct Hc as [| | | | | | | | | |s n d _|];
    try reflexivity.
  unfold addPersonalEval. destruct (String.eqb (newEventTitle s) "");
    reflexivity.
Qed.

Lemma steps_masterEvals (st st' : State) :
  steps tz st st' -> masterEvals st' = masterEvals st.
Proof.
  induction 1 as [st|st1 st2 st3 H12 _ IH]; [reflexivity|].
  rewrite IH. apply step_masterEvals. exact H12.
Qed.

Lemma step_selectedMonth (st st' : State) :
  step tz st st' ->
  selectedMonth st' = selectedMonth st \/ In (selectedMonth st') monthTabs.
Proof.
  intros [s s' _ Hc].
  destruct Hc as [| | | | |s m _ Hm| | | | |s n d _|];
    try (left; reflexivity).
  - right. exact Hm.
  - left. unfold addPersonalEval.
    destruct (String.eqb (newEventTitle s) ""); reflexivity.
Qed.

(** A label that is not a tab cannot be selected again once left. *)
Lemma steps_selectedMonth (label : string) (st st' : State) :
  ~ In label monthTabs ->
  steps tz st st' -> selectedMonth st <> label -> selectedMonth st' <> label.
Proof.
  intros Hout. induction 1 as [st|st1 st2 st3 H12 _ IH]; [tauto|].
  intros H1. apply IH.
  destruct (step_selectedMonth _ _ H12) as [->|Hin]; [exact H1|].
  intros Heq. apply Hout. rewrite <- Heq. exact Hin.
Qed.

Lemma in_allEvals (st : State) (e : EvalEvent) :
  In e (allEvals st) <-> In e (masterEvals st) \/ In e (personalEvals st).
Proof.
  rewrite <- in_app_iff. unfold allEvals. split.
  - apply Permutation_in, Permutation_sym, Array_sort_perm.
  - apply Permutation_in, Array_sort_perm.
Qed.

Lemma in_select_evals (lower : CalDate) (table : list EvalEvent)
      (e : EvalEvent) :
  In e (select_evals lower table) <->
  In e table /\ days_from_civil lower <= days_from_civil (event_date e).
Proof.
  unfold select_evals.
  pose proof (filter_In
                (fun x => days_from_civil lower
                          <=? days_from_civil (event_date x)) e table) as Hf.
  cbv beta in Hf. rewrite Z.leb_le in Hf. rewrite <- Hf. split.
  - apply Permutation_in, Permutation_sym, Array_sort_perm.
  - apply Permutation_in, Array_sort_perm.
Qed.

Lemma days_from_civil_format (now : Date) :
  days_from_civil (format_yyyy_MM_dd tz now) = localDay tz now.
Proof.
  unfold format_yyyy_MM_dd. apply CalendarFacts.days_from_civil_from_days.
Qed.

Lemma fetchData_masterEvals (now : Date) (table : option (list EvalEvent))
      (st st1 : State) :
  fetchData tz now table st = Some st1 ->
  masterEvals st1
  = match table with
    | Some t => select_evals (format_yyyy_MM_dd tz now) t
    | None => masterEvals st
    end /\
  selectedMonth st1 = selectedMonth st.
Proof.
  unfold fetchData. intros H.
  destruct (localStorage st) as [stored|];
    [destruct (JSON_parse stored) as [own|]; [|discriminate]|];
    injection H as <-; destruct table; split; reflexivity.
Qed.

End Session.

(** C9 (as amended).  After the load at instant [now], every remote event
    held by the component is dated on or after the local day of [now], and
    user actions never change that; so an event of the merged sequence is
    dated on or after the load day unless it is a personal one.  Personal
    events come from the stored list as they are. *)
Theorem fetchData_remote_not_past (tz : Z) (now0 now : Date)
        (slot : option json) (table : option (list EvalEvent))
        (st1 : State) :
  fetchData tz now table (initialState tz now0 slot) = Some st1 ->
  (forall e, In e (masterEvals st1) ->
             localDay tz now <= days_from_civil (event_date e)) /\
  (forall st2, steps tz st1 st2 ->
   forall e, In e (allEvals st2) ->
             localDay tz now <= days_from_civil (event_date e)
             \/ In e (personalEvals st2)) /\
  (forall stored, slot = Some stored ->
                  JSON_parse stored = Some (personalEvals st1)).
Proof.
  intros Hload.
  assert (Hm : forall e, In e (masterEvals st1) ->
                         localDay tz now <= days_from_civil (event_date e)).
  { destruct (fetchData_masterEvals tz _ _ _ _ Hload) as [-> _].
    destruct table as [t|]; [|intros e []].
    intros e He. apply in_select_evals in He as [_ He].
    rewrite days_from_civil_format in He. exact He. }
  split; [exact Hm|]. split.
  - intros st2 Hsteps e He. apply in_allEvals in He as [He|He].
    + left. apply Hm. rewrite <- (steps_masterEvals tz _ _ Hsteps). exact He.
    + right. exact He.
  - intros stored ->. unfold fetchData, initialState in Hload.
    cbn [localStorage] in Hload.
    destruct (JSON_parse stored) as [own|]; [|discriminate].
    injection Hload as <-. reflexivity.
Qed.

(** C9, as stated, fails: a task stored on 9 March is loaded on 10 March
    and is in the merged sequence, a day in the past. *)
Lemma stored_task_of_yesterday_is_merged :
  exists st1,
    fetchData Sample.IST Sample.mar_10_noon (Some [Sample.quiz_mar_10])
              (initialState Sample.IST Sample.mar_10_noon
                            (Some (JSON_value [Sample.old_task])))
    = Some st1 /\
    In Sample.old_task (allEvals st1) /\
    days_from_civil (event_date Sample.old_task)
    < localDay Sample.IST Sample.mar_10_noon.
Proof.
  eexists. split; [vm_compute; reflexivity|].
  split; [vm_compute; left; reflexivity | vm_compute; reflexivity].
Qed.

(** ** The month selected at load time *)

Lemma late_month_not_tab (m : Z) :
  6 <= m <= 12 -> ~ In (toUpperCase (month_abbrev m)) monthTabs.
Proof.
  intros Hm. CalendarFacts.month_cases m; try lia;
    vm_compute; intuition discriminate.
Qed.

Lemma format_month_range (tz : Z) (now : Date) :
  1 <= month (format_yyyy_MM_dd tz now) <= 12.
Proof.
  unfold format_yyyy_MM_dd.
  destruct (CalendarFacts.days_from_civil_from_days (localDay tz now))
    as [Hv _].
  apply CalendarFacts.valid_date_bounds in Hv. tauto.
Qed.

(** C10.  The month selected at the first render, and still after the load,
    is the upper-case three-letter label of the month [m] of the local date.
    When [m] is June or later the label is none of the five tabs; the
    Monthly bucket of a state with that label holds exactly the events of
    the merged sequence dated in month [m]; and once another label is
    selected no user action selects it again.  For October the label is
    OCT. *)
Theorem selectedMonth_initial_outside_tabs (tz : Z) (now : Date)
        (slot : option json) :
  let m := month (format_yyyy_MM_dd tz now) in
  let label := toUpperCase (month_abbrev m) in
  selectedMonth (initialState tz now slot) = label /\
  (forall t table st1,
      fetchData tz t table (initialState tz now slot) = Some st1 ->
      selectedMonth st1 = label) /\
  (m = 10 -> label = "OCT") /\
  (6 <= m ->
   ~ In label monthTabs /\
   (forall st e,
       selectedMonth st = label -> valid_date (event_date e) = true ->
       (In e (monthlyEvals tz st) <->
        In e (allEvals st) /\ month (event_date e) = m)) /\
   (forall st st',
       selectedMonth st <> label -> steps tz st st' ->
       selectedMonth st' <> label)).
Proof.
  cbv zeta. pose proof (format_month_range tz now) as Hm.
  split; [reflexivity|]. split.
  - intros t table st1 Hload.
    destruct (fetchData_masterEvals tz _ _ _ _ Hload) as [_ ->]. reflexivity.
  - split; [intros ->; reflexivity|]. intros Hlate.
    pose proof (late_month_not_tab _ (conj Hlate (proj2 Hm))) as Hout.
    split; [exact Hout|]. split.
    + intros st e Hsel Hv. rewrite (in_monthlyEvals tz st e Hv), Hsel.
      split; intros [HI He]; (split; [exact HI|]).
      * apply month_label_injective; try assumption.
        apply CalendarFacts.valid_date_bounds in Hv. tauto.
      * rewrite He. reflexivity.
    + intros st st' Hne Hsteps.
      apply (steps_selectedMonth tz _ st st' Hout Hsteps Hne).
Qed.

(** ** The theorems at sample inputs *)

Lemma weeklyEvals_current_week_witness :
  weekOffset (Sample.loaded [Sample.quiz_mar_10] [] None) = 0 /\
  In Sample.quiz_mar_10
     (weeklyEvals Sample.IST Sample.mar_10_noon
                  (Sample.loaded [Sample.quiz_mar_10] [] None)).
Proof.
  split; [reflexivity|].
  apply (weeklyEvals_current_week
           Sample.IST Sample.mar_10_noon
           (Sample.loaded [Sample.quiz_mar_10] [] None)
           Sample.quiz_mar_10 eq_refl).
  - reflexivity.
  - left. reflexivity.
Defined.

Lemma monthlyEvals_year_agnostic_witness :
  year (event_date Sample.lab_mar_2025)
  = year (event_date Sample.quiz_mar_10) + 1 /\
  In Sample.quiz_mar_10 (monthlyEvals Sample.IST Sample.three_events) /\
  In Sample.lab_mar_2025 (monthlyEvals Sample.IST Sample.three_events) /\
  ~ In Sample.quiz_oct_14 (monthlyEvals Sample.IST Sample.three_events).
Proof.
  destruct (proj2 (monthlyEvals_year_agnostic Sample.IST Sample.three_events)
                  3 ltac:(lia) eq_refl) as [Hiff Hboth].
  split; [reflexivity|].
  destruct (Hboth Sample.quiz_mar_10 Sample.lab_mar_2025 eq_refl eq_refl
                  (or_introl eq_refl) (or_intror (or_intror (or_introl eq_refl)))
                  eq_refl eq_refl eq_refl) as [H1 H2].
  split; [exact H1|]. split; [exact H2|].
  intros Hin.
  destruct (proj1 (Hiff Sample.quiz_oct_14 eq_refl) Hin) as [_ Hm].
  discriminate Hm.
Defined.

Lemma addPersonalEval_empty_title_witness :
  newEventTitle Sample.one_task = "" /\
  addPersonalEval Sample.IST Sample.mar_10_noon Sample.mar_10_noon
                  Sample.one_task
  = Sample.one_task.
Proof.
  split; [reflexivity|].
  apply (addPersonalEval_empty_title
           Sample.IST Sample.mar_10_noon Sample.mar_10_noon Sample.one_task).
  reflexivity.
Defined.

Lemma add_then_delete_restores_witness :
  serialized
    (deletePersonalEval
       (IdNum (Sample.mar_10_noon + 1))
       (addPersonalEval Sample.IST (Sample.mar_10_noon + 1)
                        Sample.mar_10_noon
                        (setNewEventTitle "New" Sample.one_task)))
  = serialized (setNewEventTitle "New" Sample.one_task).
Proof.
  apply (add_then_delete_restores
           Sample.IST (Sample.mar_10_noon + 1) Sample.mar_10_noon
           (setNewEventTitle "New" Sample.one_task)).
  - discriminate.
  - intros e [<-|[]]. discriminate.
  - reflexivity.
Defined.

Lemma fetchData_remote_not_past_witness :
  fetchData Sample.IST Sample.mar_10_noon (Some [Sample.quiz_mar_10])
            (initialState Sample.IST Sample.mar_10_noon
                          (Some (JSON_value [Sample.old_task])))
  = Some Sample.loaded_mar_10 /\
  localDay Sample.IST Sample.mar_10_noon
  <= days_from_civil (event_date Sample.quiz_mar_10).
Proof.
  assert (Hload :
            fetchData Sample.IST Sample.mar_10_noon
                      (Some [Sample.quiz_mar_10])
                      (initialState Sample.IST Sample.mar_10_noon
                                    (Some (JSON_value [Sample.old_task])))
            = Some Sample.loaded_mar_10)
    by (vm_compute; reflexivity).
  split; [exact Hload|].
  exact (proj1 (fetchData_remote_not_past
                  Sample.IST Sample.mar_10_noon Sample.mar_10_noon
                  (Some (JSON_value [Sample.old_task]))
                  (Some [Sample.quiz_mar_10]) Sample.loaded_mar_10 Hload)
               Sample.quiz_mar_10 (or_introl eq_refl)).
Defined.

Lemma selectedMonth_initial_outside_tabs_witness :
  selectedMonth (initialState Sample.IST Sample.oct_10_noon None) = "OCT" /\
  ~ In "OCT" monthTabs /\
  In Sample.quiz_oct_14 (monthlyEvals Sample.IST Sample.october) /\
  ~ In Sample.quiz_mar_10 (monthlyEvals Sample.IST Sample.october).
Proof.
  assert (Hm : month (format_yyyy_MM_dd Sample.IST Sample.oct_10_noon) = 10)
    by (vm_compute; reflexivity).
  destruct (selectedMonth_initial_outside_tabs
              Sample.IST Sample.oct_10_noon None)
    as (Hinit & _ & _ & Hlate).
  rewrite Hm in Hinit, Hlate.
  destruct (Hlate ltac:(lia)) as (Hout & Hbucket & _).
  split; [exact Hinit|]. split; [exact Hout|].
  pose proof (Hbucket Sample.october Sample.quiz_oct_14 eq_refl eq_refl)
    as Hoct.
  pose proof (Hbucket Sample.october Sample.quiz_mar_10 eq_refl eq_refl)
    as Hmar.
  split.
  - exact (proj2 Hoct (conj (or_intror (or_introl eq_refl)) eq_refl)).
  - intros Hin. destruct (proj1 Hmar Hin) as [_ Hmonth].
    discriminate Hmonth.
Defined.

(** ** The stored list is read back as it was written *)

Lemma digit_val_digit (n : Z) : digit_val (digit n) = Some (n mod 10).
Proof.
  unfold digit.
  assert (H : 0 <= n mod 10 < 10) by (apply Z.mod_pos_bound; lia).
  assert (Hc : n mod 10 = 0 \/ n mod 10 = 1 \/ n mod 10 = 2 \/ n mod 10 = 3 \/
               n mod 10 = 4 \/ n mod 10 = 5 \/ n mod 10 = 6 \/ n mod 10 = 7 \/
               n mod 10 = 8 \/ n mod 10 = 9) by lia.
  repeat (destruct Hc as [Hc|Hc]); rewrite Hc; reflexivity.
Qed.

Lemma number2_digits (a b : Z) :
  number2 (digit a) (digit b) = Some (10 * (a mod 10) + b mod 10).
Proof. unfold number2. rewrite !digit_val_digit. reflexivity. Qed.

Lemma parse_date_text_date_text (d : CalDate) :
  0 <= year d < 10000 -> 0 <= month d < 100 -> 0 <= day d < 100 ->
  parse_date_text (date_text d) = Some d.
Proof.
  intros Hy Hm Hd. destruct d as [y m dd]; cbn [year month day] in *.
  unfold date_text, pad4, pad2, parse_date_text; cbn [append year month day].
  rewrite !number2_digits. cbn [Ascii.eqb Bool.eqb andb].
  replace (y / 1000) with (y / 10 / 10 / 10)
    by (rewrite !Z.div_div by lia; reflexivity).
  replace (y / 100) with (y / 10 / 10)
    by (rewrite !Z.div_div by lia; reflexivity).
  f_equal. f_equal; Z.div_mod_to_equations; lia.
Qed.

Lemma type_of_text_type_text (t : EvalType) : type_of_text (type_text t) = Some t.
Proof. destruct t; reflexivity. Qed.

Lemma id_of_json_id_json (i : EvalId) : id_of_json (id_json i) = Some i.
Proof. destruct i; reflexivity. Qed.

Lemma event_of_json_event_json (e : EvalEvent) :
  spellable e -> event_of_json (event_json e) = Some e.
Proof.
  intros [Hy Hv]. apply CalendarFacts.valid_date_bounds in Hv as [Hm Hd].
  pose proof (CalendarFacts.days_in_month_le
                (year (event_date e)) (month (event_date e))) as Hd31.
  pose proof (parse_date_text_date_text (event_date e) Hy
                ltac:(lia) ltac:(lia)) as Hdate.
  pose proof (type_of_text_type_text (type e)) as Htype.
  pose proof (id_of_json_id_json (id e)) as Hid.
  destruct e as [i t d tr de ty ip]; cbn [id title event_date time_range
    description type isPersonal] in *.
  unfold event_json; cbn [id title event_date time_range description type
    isPersonal].
  remember (date_text d) as ds. remember (type_text ty) as ts.
  remember (id_json i) as ji.
  destruct tr as [tr|], ip as [ip|], de as [de|];
    cbn; rewrite Hid, Hdate, Htype; reflexivity.
Qed.

(** What [JSON.stringify] wrote, [JSON.parse] gives back. *)
Theorem JSON_parse_JSON_value (l : list EvalEvent) :
  Forall spellable l -> JSON_parse (JSON_value l) = Some l.
Proof.
  unfold JSON_parse, JSON_value.
  induction 1 as [|e l He _ IH]; cbn [map events_of_json]; [reflexivity|].
  rewrite (event_of_json_event_json e He), IH. reflexivity.
Qed.

(** * Further properties of the component *)

(** ** Weeks *)

(** X1.  In a time zone of constant offset [tz] (no daylight-saving
    change inside the week): whatever the week offset, the displayed week
    starts at local midnight of a Sunday and ends 7 days later less one
    millisecond; the interval handed to [isWithinInterval] is never
    reversed. *)
Theorem week_interval_shape (tz : Z) (today : Date) (st : State) :
  let W := localDay tz today - getDay tz today + 7 * weekOffset st in
  (W + 4) mod 7 = 0 /\
  localDay tz (currentWeekStart tz today st) = W /\
  timeInDay tz (currentWeekStart tz today st) = 0 /\
  getTime (currentWeekEnd tz today st)
  = getTime (currentWeekStart tz today st) + 7 * msPerDay - 1 /\
  getTime (currentWeekStart tz today st)
  < getTime (currentWeekEnd tz today st).
Proof.
  cbv zeta.
  pose proof (week_day_sunday tz today st) as Hsun.
  pose proof (currentWeekStart_localDay tz today st) as Hstart.
  pose proof (currentWeekEnd_localDay tz today st) as Hend.
  unfold getTime. rewrite Hstart, Hend.
  split; [exact Hsun|]. split; [|split].
  - unfold localDay, msPerDay. Z.div_mod_to_equations. lia.
  - unfold timeInDay, msPerDay. Z.div_mod_to_equations. lia.
  - unfold msPerDay, Date. lia.
Qed.

Lemma in_weeklyEvals_offset (tz : Z) (today : Date) (st : State) (k : Z)
      (e : EvalEvent) :
  In e (weeklyEvals tz today (setWeekOffset k st)) <->
  In e (allEvals st) /\
  localDay tz today - getDay tz today + 7 * k
  <= days_from_civil (event_date e)
  <= localDay tz today - getDay tz today + 7 * k + 6.
Proof. apply (in_weeklyEvals tz today (setWeekOffset k st) e). Qed.

(** X2.  The weekly buckets of the different offsets split the merged
    sequence: an event is in the merged sequence exactly when some offset
    shows it, and no event is shown at two offsets. *)
Theorem weekly_buckets_partition (tz : Z) (today : Date) (st : State)
        (e : EvalEvent) :
  (In e (allEvals st) <->
   exists k, In e (weeklyEvals tz today (setWeekOffset k st))) /\
  (forall k k',
      In e (weeklyEvals tz today (setWeekOffset k st)) ->
      In e (weeklyEvals tz today (setWeekOffset k' st)) -> k = k').
Proof.
  split; [split|].
  - intros He.
    exists ((days_from_civil (event_date e)
             - (localDay tz today - getDay tz today)) / 7).
    apply in_weeklyEvals_offset. split; [exact He|].
    Z.div_mod_to_equations. lia.
  - intros [k Hk]. apply in_weeklyEvals_offset in Hk. tauto.
  - intros k k' Hk Hk'.
    apply in_weeklyEvals_offset in Hk, Hk'. lia.
Qed.

(** X3.  In Weekly mode the tag Current Week is on exactly when the
    displayed week contains the instant of the render (time zone of constant
    offset); in the other modes, where the weekly header is not rendered,
    there is no tag. *)
Theorem currentWeekTag_iff_today_in_week (tz : Z) (today : Date) (st : State) :
  currentWeekTag st
  = match viewMode st with
    | weekly =>
        isWithinInterval today (currentWeekStart tz today st)
                         (currentWeekEnd tz today st)
    | _ => false
    end.
Proof.
  unfold currentWeekTag. destruct (viewMode st); try reflexivity.
  unfold isWithinInterval, getTime.
  rewrite currentWeekStart_localDay, currentWeekEnd_localDay.
  destruct (local_decomposition tz today) as [Hd Ht].
  pose proof (getDay_range tz today) as Hg. unfold msPerDay, Date in *.
  destruct (Z.eqb_spec (weekOffset st) 0) as [H0|H0]; symmetry.
  - apply andb_true_iff. rewrite !Z.leb_le. lia.
  - apply andb_false_iff. rewrite !Z.leb_gt. lia.
Qed.

(** X4.  Right after the switch to Weekly the bucket holds all of Today's
    events; it holds Tomorrow's too, except on a Saturday, when it holds
    none of them. *)
Theorem weekly_after_switch_covers_today (tz : Z) (today : Date) (st : State) :
  let st' := setWeekOffset 0 (setViewMode weekly st) in
  incl (todayEvals tz today st) (weeklyEvals tz today st') /\
  (getDay tz today <> 6 ->
   incl (tomorrowEvals tz today st) (weeklyEvals tz today st')) /\
  (getDay tz today = 6 ->
   forall e, In e (tomorrowEvals tz today st) ->
             ~ In e (weeklyEvals tz today st')).
Proof.
  cbv zeta. pose proof (getDay_range tz today) as Hg.
  assert (Hw : forall e,
             In e (weeklyEvals tz today
                               (setWeekOffset 0 (setViewMode weekly st))) <->
             In e (allEvals st) /\
             localDay tz today - getDay tz today + 7 * 0
             <= days_from_civil (event_date e)
             <= localDay tz today - getDay tz today + 7 * 0 + 6)
    by (intros e;
        apply (in_weeklyEvals tz today
                 (setWeekOffset 0 (setViewMode weekly st)) e)).
  split; [|split].
  - intros e He. apply in_todayEvals in He. apply Hw. split; [tauto|lia].
  - intros Hsat e He. apply in_tomorrowEvals in He. apply Hw.
    split; [tauto|lia].
  - intros Hsat e He Hin. apply in_tomorrowEvals in He. apply Hw in Hin. lia.
Qed.

(** ** Order inside the buckets *)

Lemma StronglySorted_filter_keeps {A : Type} (R : A -> A -> Prop)
      (f : A -> bool) (l : list A) :
  StronglySorted R l -> StronglySorted R (filter f l).
Proof.
  induction 1 as [|a l Hs IH Ha]; cbn [filter]; [constructor|].
  destruct (f a); [|exact IH].
  constructor; [exact IH|].
  apply Forall_forall. intros x Hx. apply filter_In in Hx as [Hx _].
  exact (proj1 (Forall_forall _ _) Ha x Hx).
Qed.

(** X5.  Every bucket lists its events in ascending order of date. *)
Theorem buckets_sorted (tz : Z) (today : Date) (st : State) :
  let ascending :=
    StronglySorted (fun a b : EvalEvent =>
                      days_from_civil (event_date a)
                      <= days_from_civil (event_date b)) in
  ascending (todayEvals tz today st) /\
  ascending (tomorrowEvals tz today st) /\
  ascending (upcomingEvals tz today st) /\
  ascending (weeklyEvals tz today st) /\
  ascending (monthlyEvals tz st).
Proof.
  cbv zeta.
  assert (Hs : StronglySorted
                 (fun a b : EvalEvent =>
                    days_from_civil (event_date a)
                    <= days_from_civil (event_date b)) (allEvals st))
    by apply (Array_sort_sorted _ compare_event_date _ compare_event_date_key).
  repeat split; apply StronglySorted_filter_keeps; exact Hs.
Qed.

(** ** Month tabs *)

Lemma monthTabs_labels (m : string) :
  In m monthTabs <->
  exists n, 1 <= n <= 5 /\ m = toUpperCase (month_abbrev n).
Proof.
  split.
  - intros H. cbn in H.
    destruct H as [<-|[<-|[<-|[<-|[<-|[]]]]]];
      [exists 1|exists 2|exists 3|exists 4|exists 5];
      (split; [lia|reflexivity]).
  - intros (n & Hn & ->).
    assert (Hc : n = 1 \/ n = 2 \/ n = 3 \/ n = 4 \/ n = 5) by lia.
    destruct Hc as [->|[->|[->|[->| ->]]]]; cbn; tauto.
Qed.

(** X6.  The five tabs are the labels of January to May.  With the tab of
    month [n] selected, the Monthly bucket holds exactly the events of the
    merged sequence dated in month [n], of any year; an event dated June
    to December is in the bucket of no tab. *)
Theorem month_tab_bucket (tz : Z) (st : State) (e : EvalEvent) :
  valid_date (event_date e) = true ->
  (forall n, 1 <= n <= 5 ->
     In (toUpperCase (month_abbrev n)) monthTabs /\
     (In e (monthlyEvals tz
              (setSelectedMonth (toUpperCase (month_abbrev n)) st)) <->
      In e (allEvals st) /\ month (event_date e) = n)) /\
  (6 <= month (event_date e) ->
   forall m, In m monthTabs ->
             ~ In e (monthlyEvals tz (setSelectedMonth m st))).
Proof.
  intros Hv.
  pose proof (CalendarFacts.valid_date_bounds _ Hv) as [Hm _].
  assert (Hb : forall m,
             In e (monthlyEvals tz (setSelectedMonth m st)) <->
             In e (allEvals st) /\
             toUpperCase (month_abbrev (month (event_date e))) = m)
    by (intros m; apply (in_monthlyEvals tz (setSelectedMonth m st) e Hv)).
  split.
  - intros n Hn. split.
    + apply monthTabs_labels. exists n. split; [exact Hn|reflexivity].
    + rewrite Hb. split; intros [HI He]; (split; [exact HI|]).
      * apply (month_label_injective n); [lia|lia|exact He].
      * rewrite He. reflexivity.
  - intros Hlate m Hin Hbucket.
    apply monthTabs_labels in Hin as (n & Hn & ->).
    apply Hb in Hbucket as [_ He].
    apply (month_label_injective n) in He; lia.
Qed.

Lemma month_tab_bucket_witness :
  In Sample.quiz_mar_10
     (monthlyEvals Sample.IST
        (setSelectedMonth (toUpperCase (month_abbrev 3)) Sample.october)).
Proof.
  apply (proj1 (month_tab_bucket Sample.IST Sample.october
                  Sample.quiz_mar_10 eq_refl) 3 ltac:(lia)).
  split; [left; reflexivity | reflexivity].
Defined.

(** ** Personal tasks and the store *)

Lemma addPersonalEval_nonempty (tz now_id : Z) (now_date : Date) (st : State) :
  newEventTitle st <> "" ->
  addPersonalEval tz now_id now_date st
  = mkState (masterEvals st)
            (personalEvals st ++ [newEval tz now_id now_date st])%list
            (loading st) (viewMode st) (weekOffset st) (selectedMonth st)
            "" "" false
            (Some (JSON_value
                     (personalEvals st ++ [newEval tz now_id now_date st])%list)).
Proof.
  intros Ht. unfold addPersonalEval.
  destruct (String.eqb_spec (newEventTitle st) "") as [He|_];
    [contradiction|reflexivity].
Qed.

Lemma addPersonalEval_store (tz now_id : Z) (now_date : Date) (st : State) :
  (personalEvals (addPersonalEval tz now_id now_date st) = personalEvals st /\
   localStorage (addPersonalEval tz now_id now_date st) = localStorage st) \/
  localStorage (addPersonalEval tz now_id now_date st)
  = Some (JSON_value (personalEvals (addPersonalEval tz now_id now_date st))).
Proof.
  unfold addPersonalEval. destruct (String.eqb (newEventTitle st) "");
    [left; split; reflexivity | right; reflexivity].
Qed.

Lemma step_store (tz : Z) (st st' : State) :
  step tz st st' ->
  (personalEvals st' = personalEvals st /\
   localStorage st' = localStorage st) \/
  localStorage st' = Some (JSON_value (personalEvals st')).
Proof.
  intros [s s' _ Hc].
  destruct Hc as [| | | | | | | | | |s n d _|];
    try (left; split; reflexivity).
  - apply addPersonalEval_store.
  - right. reflexivity.
Qed.

(** X7.  A user action either leaves the personal list and the slot alone
    or leaves the slot holding the document of the personal list.  So over
    any number of actions the slot is untouched until the list is, and a
    slot that holds the list keeps holding it. *)
Theorem steps_store_in_sync (tz : Z) (st st' : State) :
  steps tz st st' ->
  ((personalEvals st' = personalEvals st /\
    localStorage st' = localStorage st) \/
   serialized st' = Some (JSON_stringify (personalEvals st'))) /\
  (localStorage st = Some (JSON_value (personalEvals st)) ->
   localStorage st' = Some (JSON_value (personalEvals st'))).
Proof.
  unfold serialized, JSON_stringify.
  induction 1 as [st|st1 st2 st3 H12 _ [IHa IHb]].
  - split; [left; split; reflexivity | tauto].
  - destruct (step_store tz _ _ H12) as [[Hp Hl]|Hs].
    + rewrite Hp, Hl in *. split; assumption.
    + split.
      * right. rewrite (IHb Hs). reflexivity.
      * intros _. exact (IHb Hs).
Qed.

Lemma steps_store_in_sync_witness :
  localStorage (addPersonalEval Sample.IST Sample.mar_10_noon
                                Sample.mar_10_noon Sample.one_task_typing)
  = Some (JSON_value
            (personalEvals
               (addPersonalEval Sample.IST Sample.mar_10_noon
                                Sample.mar_10_noon Sample.one_task_typing))).
Proof.
  apply (steps_store_in_sync
           Sample.IST Sample.one_task_typing
           (addPersonalEval Sample.IST Sample.mar_10_noon
                            Sample.mar_10_noon Sample.one_task_typing)).
  - eapply steps_cons; [|apply steps_refl].
    apply user_action; [reflexivity|]. apply click_add. reflexivity.
  - reflexivity.
Defined.

(** A new session over a slot that holds the document of a list of
    spellable events starts with that list. *)
Lemma fetchData_reads_back (tz : Z) (now0 now : Date)
      (table : option (list EvalEvent)) (l : list EvalEvent) :
  Forall spellable l ->
  exists st1,
    fetchData tz now table (initialState tz now0 (Some (JSON_value l)))
    = Some st1 /\
    personalEvals st1 = l /\ loading st1 = false /\
    localStorage st1 = Some (JSON_value l).
Proof.
  intros Hl. unfold fetchData, initialState. cbn [localStorage].
  rewrite (JSON_parse_JSON_value l Hl).
  eexists. split; [reflexivity|]. cbn. repeat split.
Qed.

Lemma newEval_spellable (tz now_id : Z) (now_date : Date) (st : State) :
  0 <= year (format_yyyy_MM_dd tz now_date) < 10000 ->
  spellable (newEval tz now_id now_date st).
Proof.
  intros Hy. split; [exact Hy|]. cbn [newEval event_date].
  unfold format_yyyy_MM_dd. apply CalendarFacts.days_from_civil_from_days.
Qed.

(** X8.  A task that was added is there after a reload: when the stored
    events and the clock have four-digit years, a new session over the slot
    that [addPersonalEval] wrote starts with the old list followed by the
    new task. *)
Theorem added_task_survives_reload (tz now_id : Z) (now_date now0 now : Date)
        (table : option (list EvalEvent)) (st : State) :
  newEventTitle st <> "" ->
  Forall spellable (personalEvals st) ->
  0 <= year (format_yyyy_MM_dd tz now_date) < 10000 ->
  exists st1,
    fetchData tz now table
              (initialState tz now0
                 (localStorage (addPersonalEval tz now_id now_date st)))
    = Some st1 /\
    personalEvals st1
    = (personalEvals st ++ [newEval tz now_id now_date st])%list /\
    personalEvals st1 = personalEvals (addPersonalEval tz now_id now_date st).
Proof.
  intros Ht Hl Hy. rewrite (addPersonalEval_nonempty tz _ _ _ Ht).
  cbn [localStorage personalEvals].
  destruct (fetchData_reads_back tz now0 now table
              (personalEvals st ++ [newEval tz now_id now_date st])%list)
    as (st1 & Hload & Hp & _).
  { apply Forall_app. split; [exact Hl|].
    constructor; [|constructor]. apply newEval_spellable. exact Hy. }
  exists st1. rewrite Hp. repeat split. exact Hload.
Qed.

Lemma added_task_survives_reload_witness :
  exists st1,
    fetchData Sample.IST Sample.mar_10_noon None
              (initialState Sample.IST Sample.mar_10_noon
                 (localStorage
                    (addPersonalEval Sample.IST Sample.mar_10_noon
                       Sample.mar_10_noon Sample.one_task_typing)))
    = Some st1 /\
    personalEvals st1
    = (personalEvals Sample.one_task_typing
       ++ [newEval Sample.IST Sample.mar_10_noon Sample.mar_10_noon
                   Sample.one_task_typing])%list /\
    personalEvals st1
    = personalEvals (addPersonalEval Sample.IST Sample.mar_10_noon
                       Sample.mar_10_noon Sample.one_task_typing).
Proof.
  apply (added_task_survives_reload
           Sample.IST Sample.mar_10_noon Sample.mar_10_noon
           Sample.mar_10_noon Sample.mar_10_noon None
           Sample.one_task_typing).
  - discriminate.
  - constructor; [|constructor]. split; [vm_compute; intuition discriminate
                                        | vm_compute; reflexivity].
  - vm_compute. intuition discriminate.
Defined.

(** X9.  A task that was deleted stays deleted: a new session over the slot
    that [deletePersonalEval] wrote starts with the elements whose id
    differs from the deleted one, and none with that id. *)
Theorem deleted_task_stays_deleted (tz : Z) (now0 now : Date)
        (table : option (list EvalEvent)) (i : EvalId) (st : State) :
  Forall spellable (personalEvals st) ->
  exists st1,
    fetchData tz now table
              (initialState tz now0
                 (localStorage (deletePersonalEval i st)))
    = Some st1 /\
    personalEvals st1 = personalEvals (deletePersonalEval i st) /\
    (forall e, In e (personalEvals st1) <->
               In e (personalEvals st) /\ id e <> i).
Proof.
  intros Hl. unfold deletePersonalEval. cbn [localStorage personalEvals].
  destruct (fetchData_reads_back tz now0 now table
              (filter (fun e => negb (EvalId_eqb (id e) i))
                      (personalEvals st)))
    as (st1 & Hload & Hp & _).
  { apply Forall_forall. intros e He. apply filter_In in He as [He _].
    exact (proj1 (Forall_forall _ _) Hl e He). }
  exists st1. split; [exact Hload|]. split; [exact Hp|].
  intros e. rewrite Hp, filter_In, negb_true_iff, EvalId_eqb_neq. reflexivity.
Qed.

Lemma deleted_task_stays_deleted_witness :
  exists st1,
    fetchData Sample.IST Sample.mar_10_noon None
              (initialState Sample.IST Sample.mar_10_noon
                 (localStorage
                    (deletePersonalEval (IdNum Sample.mar_10_noon)
                                        Sample.one_task)))
    = Some st1 /\
    personalEvals st1
    = personalEvals (deletePersonalEval (IdNum Sample.mar_10_noon)
                                        Sample.one_task) /\
    (forall e, In e (personalEvals st1) <->
               In e (personalEvals Sample.one_task) /\
               id e <> IdNum Sample.mar_10_noon).
Proof.
  apply (deleted_task_stays_deleted
           Sample.IST Sample.mar_10_noon Sample.mar_10_noon None
           (IdNum Sample.mar_10_noon) Sample.one_task).
  constructor; [|constructor]. split; [vm_compute; intuition discriminate
                                      | vm_compute; reflexivity].
Defined.

(** ** A new task in the views *)

Lemma personalEvals_add (tz now_id : Z) (now_date : Date) (st : State) :
  newEventTitle st <> "" ->
  personalEvals (addPersonalEval tz now_id now_date st)
  = (personalEvals st ++ [newEval tz now_id now_date st])%list /\
  masterEvals (addPersonalEval tz now_id now_date st) = masterEvals st.
Proof.
  intros Ht. rewrite (addPersonalEval_nonempty tz _ _ _ Ht).
  split; reflexivity.
Qed.

Lemma newEval_day (tz now_id : Z) (now_date : Date) (st : State) :
  days_from_civil (event_date (newEval tz now_id now_date st))
  = localDay tz now_date.
Proof. apply days_from_civil_format. Qed.

(** X10.  A task added at instant [now_date] is in Today exactly on the
    local day of [now_date]; it is never in Tomorrow or Upcoming on that
    day or later, so from the next day on no Daily bucket shows it. *)
Theorem added_task_daily (tz now_id : Z) (now_date today : Date) (st : State) :
  newEventTitle st <> "" ->
  let task := newEval tz now_id now_date st in
  let st' := addPersonalEval tz now_id now_date st in
  In task (allEvals st') /\
  (In task (todayEvals tz today st') <->
   localDay tz today = localDay tz now_date) /\
  (localDay tz now_date <= localDay tz today ->
   ~ In task (tomorrowEvals tz today st') /\
   ~ In task (upcomingEvals tz today st')).
Proof.
  intros Ht. cbv zeta.
  assert (Hin : In (newEval tz now_id now_date st)
                   (allEvals (addPersonalEval tz now_id now_date st))).
  { apply in_allEvals. right.
    rewrite (proj1 (personalEvals_add tz now_id now_date st Ht)).
    apply in_or_app. right. left. reflexivity. }
  split; [exact Hin|].
  rewrite in_todayEvals, in_tomorrowEvals, in_upcomingEvals, newEval_day.
  split; [|intros Hle; split]; intuition lia.
Qed.

Lemma added_task_daily_witness :
  In (newEval Sample.IST Sample.mar_10_noon Sample.mar_10_noon
              Sample.one_task_typing)
     (todayEvals Sample.IST Sample.mar_10_noon
        (addPersonalEval Sample.IST Sample.mar_10_noon Sample.mar_10_noon
                         Sample.one_task_typing)).
Proof.
  apply (added_task_daily
           Sample.IST Sample.mar_10_noon Sample.mar_10_noon
           Sample.mar_10_noon Sample.one_task_typing).
  - discriminate.
  - reflexivity.
Defined.

(** X11.  In the merged sequence a new task comes after every event of its
    date, remote or personal, and the events of the other dates are as
    before. *)
Theorem added_task_last_of_its_day (tz now_id : Z) (now_date : Date)
        (st : State) (d : Z) :
  newEventTitle st <> "" ->
  let task := newEval tz now_id now_date st in
  let st' := addPersonalEval tz now_id now_date st in
  let on_day l :=
    filter (fun e : EvalEvent => days_from_civil (event_date e) =? d) l in
  on_day (allEvals st')
  = if localDay tz now_date =? d
    then (on_day (allEvals st) ++ [task])%list
    else on_day (allEvals st).
Proof.
  intros Ht. cbv zeta. unfold allEvals.
  destruct (personalEvals_add tz now_id now_date st Ht) as [-> ->].
  rewrite !(filter_Array_sort _ compare_event_date _ compare_event_date_key).
  rewrite !filter_app. cbn [filter]. rewrite newEval_day.
  destruct (localDay tz now_date =? d).
  - rewrite app_assoc. reflexivity.
  - rewrite app_nil_r. reflexivity.
Qed.

Lemma added_task_last_of_its_day_witness :
  filter (fun e : EvalEvent => days_from_civil (event_date e) =? 19792)
         (allEvals (addPersonalEval Sample.IST Sample.mar_10_noon
                                    Sample.mar_10_noon
                                    Sample.one_task_typing))
  = if localDay Sample.IST Sample.mar_10_noon =? 19792
    then (filter (fun e : EvalEvent =>
                    days_from_civil (event_date e) =? 19792)
                 (allEvals Sample.one_task_typing)
          ++ [newEval Sample.IST Sample.mar_10_noon Sample.mar_10_noon
                      Sample.one_task_typing])%list
    else filter (fun e : EvalEvent =>
                   days_from_civil (event_date e) =? 19792)
                (allEvals Sample.one_task_typing).
Proof.
  apply (added_task_last_of_its_day
           Sample.IST Sample.mar_10_noon Sample.mar_10_noon
           Sample.one_task_typing 19792).
  discriminate.
Defined.

(** ** What user actions keep *)




Lemma NoDup_map_filter {A B : Type} (g : A -> B) (f : A -> bool)
      (l : list A) :
  NoDup (map g l) -> NoDup (map g (filter f l)).
Proof.
  induction l as [|x l IH]; cbn [map filter]; intros H; [exact H|].
  apply NoDup_cons_iff in H as [Hx Hl].
  destruct (f x); [|apply IH; exact Hl].
  cbn [map]. apply NoDup_cons_iff. split; [|apply IH; exact Hl].
  intros Hin. apply Hx. apply in_map_iff in Hin as (y & Hy & Hfy).
  apply filter_In in Hfy as [Hfy _]. apply in_map_iff. exists y. tauto.
Qed.

(** X13.  Distinct ids stay distinct under deletion, and under creation
    exactly when the clock reading is the id of no task of the list. *)
Theorem personal_ids_distinct (tz now_id : Z) (now_date : Date) (i : EvalId)
        (st : State) :
  NoDup (map id (personalEvals st)) ->
  NoDup (map id (personalEvals (deletePersonalEval i st))) /\
  (newEventTitle st <> "" ->
   (NoDup (map id (personalEvals (addPersonalEval tz now_id now_date st))) <->
    forall e, In e (personalEvals st) -> id e <> IdNum now_id)).
Proof.
  intros Hnd. split.
  - apply NoDup_map_filter. exact Hnd.
  - intros Ht.
    rewrite (proj1 (personalEvals_add tz now_id now_date st Ht)), map_app.
    cbn [map newEval id]. split.
    + intros H e He Heq.
      apply (Permutation_NoDup
               (Permutation_sym (Permutation_cons_append _ _))) in H.
      apply NoDup_cons_iff in H as [Hx _]. apply Hx.
      rewrite <- Heq. apply in_map. exact He.
    + intros Hfresh.
      apply (Permutation_NoDup (Permutation_cons_append _ _)).
      apply NoDup_cons_iff. split; [|exact Hnd].
      intros Hin. apply in_map_iff in Hin as (e & He & Hin).
      exact (Hfresh e Hin He).
Qed.

Lemma personal_ids_distinct_witness :
  ~ NoDup (map id (personalEvals
                     (addPersonalEval Sample.IST Sample.mar_10_noon
                        Sample.mar_10_noon Sample.one_task_typing))).
Proof.
  intros H.
  assert (Hnd : NoDup (map id (personalEvals Sample.one_task_typing)))
    by (repeat constructor; intros []).
  assert (Hne : newEventTitle Sample.one_task_typing <> "") by discriminate.
  destruct (proj2 (personal_ids_distinct
                     Sample.IST Sample.mar_10_noon Sample.mar_10_noon
                     (IdNum 0) Sample.one_task_typing Hnd) Hne)
    as [Hfresh _].
  apply (Hfresh H Sample.noon_task); [left; reflexivity | reflexivity].
Defined.

Lemma filter_filter_comm {A : Type} (f g : A -> bool) (l : list A) :
  filter f (filter g l) = filter g (filter f l).
Proof.
  induction l as [|x l IH]; [reflexivity|]. cbn [filter].
  destruct (f x) eqn:Hf, (g x) eqn:Hg; cbn [filter];
    rewrite ?Hf, ?Hg, IH; reflexivity.
Qed.

Lemma filter_idempotent {A : Type} (f : A -> bool) (l : list A) :
  filter f (filter f l) = filter f l.
Proof.
  induction l as [|x l IH]; [reflexivity|]. cbn [filter].
  destruct (f x) eqn:Hf; cbn [filter]; rewrite ?Hf, IH; reflexivity.
Qed.

(** X14.  Deleting the same id twice is deleting it once, and two
    deletions give the same state, list and slot, in either order. *)
Theorem deletePersonalEval_twice (i j : EvalId) (st : State) :
  deletePersonalEval i (deletePersonalEval i st) = deletePersonalEval i st /\
  deletePersonalEval i (deletePersonalEval j st)
  = deletePersonalEval j (deletePersonalEval i st).
Proof.
  unfold deletePersonalEval; cbn [personalEvals masterEvals loading viewMode
    weekOffset selectedMonth newEventTitle newEventTime isFormOpen].
  split.
  - rewrite filter_idempotent. reflexivity.
  - rewrite (filter_filter_comm
               (fun e => negb (EvalId_eqb (id e) i))
               (fun e => negb (EvalId_eqb (id e) j))).
    reflexivity.
Qed.

(** X15.  No user action touches the remote events: after any number of
    actions [masterEvals] is what the load left and each remote event is
    still in the merged sequence, also after a click on the delete button
    of a remote row that carries the personal flag. *)
Theorem remote_events_stay (tz : Z) (st st' : State) :
  steps tz st st' ->
  masterEvals st' = masterEvals st /\
  (forall e, In e (masterEvals st) -> In e (allEvals st')) /\
  (forall e, In e (masterEvals st') ->
             In e (allEvals (deletePersonalEval (id e) st'))).
Proof.
  intros Hs. pose proof (steps_masterEvals tz _ _ Hs) as Hm.
  split; [exact Hm|]. split.
  - intros e He. apply in_allEvals. left. rewrite Hm. exact He.
  - intros e He. apply in_allEvals. left. exact He.
Qed.

Lemma remote_events_stay_witness :
  In Sample.quiz_mar_10
     (allEvals (deletePersonalEval (id Sample.old_task)
                                   Sample.loaded_mar_10)).
Proof.
  apply (remote_events_stay
           Sample.IST Sample.loaded_mar_10
           (deletePersonalEval (id Sample.old_task) Sample.loaded_mar_10)).
  - eapply steps_cons; [|apply steps_refl].
    apply user_action; [reflexivity|].
    apply click_trash; [left; reflexivity | reflexivity].
  - left. reflexivity.
Defined.

(** ** The content area *)

Lemma string_length_append (s t : string) :
  String.length (s ++ t) = (String.length s + String.length t)%nat.
Proof.
  induction s as [|c s IH]; cbn [append String.length]; [reflexivity|].
  rewrite IH. reflexivity.
Qed.

(** No month label makes the Monthly section the TODAY section. *)
Lemma schedule_label_not_today (s : string) :
  String.eqb (s ++ " SCHEDULE") "TODAY" = false.
Proof.
  apply String.eqb_neq. intros H.
  apply (f_equal String.length) in H.
  rewrite string_length_append in H. cbn [String.length] in H. lia.
Qed.

Lemma Section_cases (label : string) (evals : list EvalEvent)
      (showDate : bool) :
  String.eqb label "TODAY" = false ->
  Section_ label evals showDate
  = match evals with
    | [] => None
    | _ :: _ => Some (Cards label evals showDate)
    end.
Proof.
  intros Hl. unfold Section_. rewrite Hl.
  destruct evals; reflexivity.
Qed.

(** X17.  The Weekly and the Monthly view show exactly one block: the
    cards of the bucket when it has events, the note otherwise; never
    both, never neither, and never the placeholder of an empty Today. *)
Theorem weekly_monthly_content (tz : Z) (today : Date) (st : State) :
  content tz today (setViewMode weekly st)
  = match weeklyEvals tz today st with
    | [] => [Note "No academic events scheduled for this week."]
    | _ :: _ => [Cards "EVENTS" (weeklyEvals tz today st) true]
    end /\
  content tz today (setViewMode monthly st)
  = match monthlyEvals tz st with
    | [] => [Note ("No events scheduled for " ++ selectedMonth st ++ ".")]
    | _ :: _ =>
        [Cards (selectedMonth st ++ " SCHEDULE") (monthlyEvals tz st) true]
    end.
Proof.
  split.
  - change (content tz today (setViewMode weekly st))
      with (shown (Section_ "EVENTS" (weeklyEvals tz today st) true)
            ++ note_if_empty (weeklyEvals tz today st)
                 "No academic events scheduled for this week.")%list.
    rewrite Section_cases by reflexivity. unfold note_if_empty.
    destruct (weeklyEvals tz today st); reflexivity.
  - change (content tz today (setViewMode monthly st))
      with (shown (Section_ (selectedMonth st ++ " SCHEDULE")
                            (monthlyEvals tz st) true)
            ++ note_if_empty (monthlyEvals tz st)
                 ("No events scheduled for " ++ selectedMonth st ++ "."))%list.
    rewrite Section_cases by apply schedule_label_not_today.
    unfold note_if_empty. destruct (monthlyEvals tz st); reflexivity.
Qed.

Lemma Section_block (label : string) (evals : list EvalEvent)
      (showDate : bool) (b : Block) :
  In b (shown (Section_ label evals showDate)) ->
  b = NoTasks label \/ (b = Cards label evals showDate /\ evals <> []).
Proof.
  unfold Section_.
  destruct evals as [|e evals]; cbn [List.length Nat.eqb andb].
  - destruct (String.eqb label "TODAY"); cbn [shown In]; [|tauto].
    intros [<-|[]]. left. reflexivity.
  - cbn [shown In]. intros [<-|[]]. right. split; [reflexivity|discriminate].
Qed.

Lemma note_block (evals : list EvalEvent) (text : string) (b : Block) :
  In b (note_if_empty evals text) -> b = Note text.
Proof.
  unfold note_if_empty. destruct (Nat.eqb (List.length evals) 0);
    cbn [In]; [intros [<-|[]]; reflexivity | tauto].
Qed.

(** X18.  In every view the content area shows something, a section of
    cards is never empty, and every event on a card is an event of the
    merged sequence. *)
Theorem content_blocks (tz : Z) (today : Date) (st : State) :
  content tz today st <> [] /\
  (forall label evals showDate,
      In (Cards label evals showDate) (content tz today st) ->
      evals <> [] /\ incl evals (allEvals st)).
Proof.
  split.
  - unfold content. destruct (viewMode st).
    + unfold Section_ at 1.
      destruct (todayEvals tz today st); cbn; discriminate.
    + rewrite Section_cases by reflexivity. unfold note_if_empty.
      destruct (weeklyEvals tz today st); cbn; discriminate.
    + rewrite Section_cases by apply schedule_label_not_today.
      unfold note_if_empty. destruct (monthlyEvals tz st); cbn; discriminate.
  - intros label evals showDate Hin.
    assert (Hcases :
              (evals <> [] /\
               (evals = todayEvals tz today st \/
                evals = tomorrowEvals tz today st \/
                evals = upcomingEvals tz today st \/
                evals = weeklyEvals tz today st \/
                evals = monthlyEvals tz st))).
    { unfold content in Hin. destruct (viewMode st);
        repeat (apply in_app_or in Hin as [Hin|Hin]);
        try (apply note_block in Hin; discriminate Hin);
        apply Section_block in Hin as [Hin|[Hin Hne]];
        try discriminate Hin;
        injection Hin as _ -> _; split; try exact Hne; tauto. }
    destruct Hcases as [Hne Hev]. split; [exact Hne|].
    intros e He.
    destruct Hev as [->|[->|[->|[->| ->]]]];
      apply filter_In in He; tauto.
Qed.






Lemma Array_sort_nil_buckets (tz : Z) (today : Date) (st : State) :
  masterEvals st = [] -> personalEvals st = [] ->
  todayEvals tz today st = [] /\ tomorrowEvals tz today st = [] /\
  upcomingEvals tz today st = [] /\ weeklyEvals tz today st = [] /\
  monthlyEvals tz st = [].
Proof.
  intros Hm Hp.
  unfold todayEvals, tomorrowEvals, upcomingEvals, weeklyEvals, monthlyEvals,
    allEvals.
  rewrite Hm, Hp. repeat split.
Qed.

(** X19.  With no data from the remote source and nothing stored the load
    ends, and the three views show: the placeholder of Today alone, the
    weekly note alone, and the monthly note for the month of the first
    render. *)
Theorem empty_load_views (tz : Z) (now0 now today : Date) :
  exists st1,
    fetchData tz now None (initialState tz now0 None) = Some st1 /\
    Home tz today st1 = Page [NoTasks "TODAY"] /\
    Home tz today (setViewMode weekly st1)
    = Page [Note "No academic events scheduled for this week."] /\
    Home tz today (setViewMode monthly st1)
    = Page [Note ("No events scheduled for "
                  ++ toUpperCase (format_MMM tz now0) ++ ".")].
Proof.
  eexists. split; [reflexivity|].
  set (st1 := mkState _ _ _ _ _ _ _ _ _ _).
  destruct (Array_sort_nil_buckets tz today st1 eq_refl eq_refl)
    as (Ht & Hto & Hu & _ & _).
  destruct (Array_sort_nil_buckets tz today (setViewMode weekly st1)
                                   eq_refl eq_refl)
    as (_ & _ & _ & Hw & _).
  destruct (Array_sort_nil_buckets tz today (setViewMode monthly st1)
                                   eq_refl eq_refl)
    as (_ & _ & _ & _ & Hmo).
  split; [|split].
  - unfold Home, content. cbn [loading viewMode st1].
    rewrite Ht, Hto, Hu. reflexivity.
  - unfold Home, content. cbn [loading viewMode setViewMode st1].
    rewrite Hw. reflexivity.
  - unfold Home, content.
    cbn [loading viewMode selectedMonth setViewMode st1].
    rewrite Hmo, Section_cases by apply schedule_label_not_today.
    reflexivity.
Qed.

(** ** The merged sequence without personal tasks *)

(** X20.  When there are no personal tasks and the remote events are in
    ascending order of date, the merged sequence is the remote sequence as
    it is: the sort moves nothing, events of one date included. *)
Theorem allEvals_of_sorted_remote (st : State) :
  StronglySorted (fun a b : EvalEvent =>
                    days_from_civil (event_date a)
                    <= days_from_civil (event_date b)) (masterEvals st) ->
  personalEvals st = [] ->
  allEvals st = masterEvals st.
Proof.
  intros Hs Hp. unfold allEvals. rewrite Hp, app_nil_r. symmetry.
  apply (Array_sort_unique _ compare_event_date _ compare_event_date_key).
  - exact Hs.
  - reflexivity.
Qed.

Lemma allEvals_of_sorted_remote_witness :
  allEvals Sample.two_quizzes = masterEvals Sample.two_quizzes.
Proof.
  apply (allEvals_of_sorted_remote Sample.two_quizzes).
  - repeat constructor. vm_compute. discriminate.
  - reflexivity.
Defined.

(** ** Cards *)

(** X21.  The date line of a card spells the day and the month of the
    event's own date, whatever the time zone; without [showDate] there is
    no date line. *)
Theorem card_date_is_event_date (tz : Z) (e : EvalEvent) :
  valid_date (event_date e) = true ->
  EvalCard_date tz true e
  = Some (Z_text (day (event_date e)) ++ " "
          ++ month_abbrev (month (event_date e))) /\
  EvalCard_date tz false e = None.
Proof.
  intros Hv. split; [|reflexivity].
  unfold EvalCard_date, format_d_MMM.
  rewrite localDay_parseISO.
  rewrite (CalendarFacts.civil_from_days_from_civil _ Hv). reflexivity.
Qed.

Lemma card_date_is_event_date_witness :
  EvalCard_date Sample.IST true Sample.quiz_mar_24 = Some "24 Mar".
Proof.
  apply (card_date_is_event_date Sample.IST Sample.quiz_mar_24).
  reflexivity.
Defined.

Lemma NoDup_map_injective {A B : Type} (f : A -> B) (l : list A) (x y : A) :
  NoDup (map f l) -> In x l -> In y l -> f x = f y -> x = y.
Proof.
  induction l as [|a l IH]; intros Hnd Hx Hy Heq; [destruct Hx|].
  cbn [map] in Hnd. apply NoDup_cons_iff in Hnd as [Ha Hnd].
  destruct Hx as [->|Hx], Hy as [->|Hy].
  - reflexivity.
  - exfalso. apply Ha. rewrite Heq. apply in_map. exact Hy.
  - exfalso. apply Ha. rewrite <- Heq. apply in_map. exact Hx.
  - apply IH; assumption.
Qed.

Lemma filter_removes_one (e : EvalEvent) (l : list EvalEvent) :
  NoDup (map id l) -> In e l ->
  S (List.length (filter (fun x => negb (EvalId_eqb (id x) (id e))) l))
  = List.length l.
Proof.
  induction l as [|x l IH]; intros Hnd Hin; [destruct Hin|].
  cbn [map] in Hnd. apply NoDup_cons_iff in Hnd as [Hx Hnd].
  cbn [filter List.length]. destruct Hin as [->|Hin].
  - assert (Hid : EvalId_eqb (id e) (id e) = true)
      by (apply EvalId_eqb_eq; reflexivity).
    rewrite Hid. cbn [negb]. f_equal.
    rewrite filter_absent_id; [reflexivity|].
    intros y Hy Heq. apply Hx. rewrite <- Heq. apply in_map. exact Hy.
  - assert (Hid : EvalId_eqb (id x) (id e) = false).
    { apply EvalId_eqb_neq. intros Heq. apply Hx. rewrite Heq.
      apply in_map. exact Hin. }
    rewrite Hid. cbn [negb List.length]. f_equal. apply IH; assumption.
Qed.

(** X22.  When the ids of the personal list are distinct, the delete
    button of a task removes that task and no other: the list gets one
    shorter and keeps exactly the other tasks. *)
Theorem trash_removes_exactly_one (e : EvalEvent) (st : State) :
  NoDup (map id (personalEvals st)) ->
  In e (personalEvals st) ->
  let st' := deletePersonalEval (id e) st in
  S (List.length (personalEvals st')) = List.length (personalEvals st) /\
  (forall x, In x (personalEvals st') <->
             In x (personalEvals st) /\ x <> e).
Proof.
  intros Hnd Hin. cbv zeta. unfold deletePersonalEval.
  cbn [personalEvals]. split.
  - apply filter_removes_one; assumption.
  - intros x. rewrite filter_In, negb_true_iff, EvalId_eqb_neq.
    split; intros [Hx Hne]; (split; [exact Hx|]).
    + intros ->. apply Hne. reflexivity.
    + intros Heq. apply Hne.
      apply (NoDup_map_injective id (personalEvals st)); assumption.
Qed.

Lemma trash_removes_exactly_one_witness :
  S (List.length (personalEvals
                    (deletePersonalEval (id Sample.old_task)
                                        Sample.loaded_mar_10)))
  = List.length (personalEvals Sample.loaded_mar_10).
Proof.
  apply (trash_removes_exactly_one Sample.old_task Sample.loaded_mar_10).
  - repeat constructor. intros [].
  - left. reflexivity.
Defined.
